(** * The Builder pattern for [Pizza] in three C++ dialects

    [src/creational/Builder.cpp] holds three independent programs: a classic
    fluent builder (C++17), a constexpr-friendly builder (C++20) and a
    "deducing this" builder (C++23).  Every one of them declares a class
    [Pizza] with a nested aggregate [Specs], a nested class [Builder], a
    private converting constructor and a read accessor [specs()].

    The programs are embedded over an explicit object store: an object
    (a [Builder] or a [Pizza]) lives at a location, a method that returns
    [*this] returns the location it was called at, and a method that takes or
    returns an object by value creates a new object at an unused location.
    [std::string] and [std::vector] own their buffers and copy them when they
    are copied, so an object's value is kept whole in its store cell.
    Lifetimes are not modelled: an object, once created, stays in the store. *)

From Stdlib Require Import ZArith.
From stdpp Require Import base gmap strings list.

Local Open Scope Z_scope.
Local Open Scope string_scope.

(** ** Object store and the monad of member-function calls *)

Module Memory.

Definition loc := positive.

Section Store.
Context {O : Type}.

(** Outcome of a call: normal return with a value, a C++ exception that
    left the call (the operand of [throw] was a string literal), a call
    that is refused in translation (a constraint is not satisfied or is
    ill-formed, an immediate call is no constant expression), or a call
    through a reference that designates no object of the expected class. *)
Inductive outcome (A : Type) : Type :=
| Ok (a : A) (σ : gmap loc O)
| Thrown (what : string) (σ : gmap loc O)
| Refused
| Undefined.

Definition M (A : Type) : Type := gmap loc O → outcome A.

Definition ret {A} (a : A) : M A := λ σ, Ok A a σ.

Definition bind {A B} (m : M A) (k : A → M B) : M B :=
  λ σ, match m σ with
       | Ok _ a σ' => k a σ'
       | Thrown _ w σ' => Thrown B w σ'
       | Refused _ => Refused B
       | Undefined _ => Undefined B
       end.

Definition throw {A} (what : string) : M A := λ σ, Thrown A what σ.

Definition refuse {A} : M A := λ _, Refused A.

Definition undefined {A} : M A := λ _, Undefined A.

(** A call of an immediate function ([consteval]) has to be a constant
    expression.  An evaluation that reaches a throw-expression, or a call of
    a function that may not be called in a constant expression, is none: the
    call is refused in translation and nothing is evaluated at run time. *)
Definition constant_expression {A} (m : M A) : M A :=
  λ σ, match m σ with
       | Ok _ a σ' => Ok A a σ'
       | Thrown _ _ _ => Refused A
       | Refused _ => Refused A
       | Undefined _ => Undefined A
       end.

(** A new object is placed at a location that holds nothing yet. *)
Definition alloc (o : O) : M loc :=
  λ σ, let l := fresh (dom σ) in Ok loc l (<[l := o]> σ).

Definition load (l : loc) : M O :=
  λ σ, match σ !! l with
       | Some o => Ok O o σ
       | None => Undefined O
       end.

(** Assignment to (a member of) the object at [l]. *)
Definition assign (l : loc) (o : O) : M unit :=
  λ σ, match σ !! l with
       | Some _ => Ok unit () (<[l := o]> σ)
       | None => Undefined unit
       end.

End Store.

(** The specifier of a function declaration that decides whether the
    function may be called in a constant expression. *)
Inductive specifier := no_specifier | constexpr | consteval.

Definition called_in_constant_expression {O A} (s : specifier)
           (m : gmap loc O → outcome A) : gmap loc O → outcome A :=
  match s with
  | no_specifier => refuse
  | constexpr | consteval => m
  end.

Arguments outcome : clear implicits.
Arguments M : clear implicits.
Arguments Ok {O A} a σ.
Arguments Thrown {O A} what σ.
Arguments Refused {O A}.
Arguments Undefined {O A}.

End Memory.

Import Memory.

(** stdpp's [x ← m; k] notation is used for sequencing calls. *)
#[global] Instance M_ret {O} : MRet (M O) := @ret O.
#[global] Instance M_bind {O} : MBind (M O) := λ A B k m, bind m k.
#[global] Instance M_fmap {O} : FMap (M O) := λ A B f m, bind m (λ a, ret (f a)).

(** ** What the three programs declare alike

    The three declarations of [Pizza] differ in the text type of [Specs]
    ([std::string] at line 32, [std::string_view] at lines 86 and 147) and in
    the member functions of [Builder]; the data members, the private
    constructor and the accessor are the same text.  [int] values are
    embedded in [Z]; no arithmetic is done on them. *)

Section Classes.
Context {T : Type}.

(** [struct Specs { T crust; int size_cm = 32; std::vector<T> toppings; };]
    The default member initialiser is given where a variant creates its
    builder. *)
Record Specs := mkSpecs {
  crust : T;
  size_cm : Z;
  toppings : list T
}.

(** Both classes have the single private data member [Specs specs_;]. *)
Record Pizza := mkPizza { Pizza_specs_ : Specs }.
Record Builder := mkBuilder { Builder_specs_ : Specs }.

Inductive object :=
| OBuilder (b : Builder)
| OPizza (p : Pizza).

Definition load_Builder (this : loc) : M object Builder :=
  o ← load this;
  match o with
  | OBuilder b => mret b
  | OPizza _ => undefined
  end.

Definition load_Pizza (this : loc) : M object Pizza :=
  o ← load this;
  match o with
  | OPizza p => mret p
  | OBuilder _ => undefined
  end.

(** [explicit Pizza(const Specs& s) : specs_{s} {}] (private; lines 53,
    114, 181): the member of the new object is copy-constructed from [s]. *)
Definition new_Pizza (s : Specs) : M object loc :=
  alloc (OPizza {| Pizza_specs_ := s |}).

(** [const Specs& specs() const { return specs_; }] (lines 38, 91, 152) *)
Definition Pizza_specs (this : loc) : M object Specs :=
  p ← load_Pizza this;
  mret (Pizza_specs_ p).

(** The [Pizza] objects of a store. *)
Definition Pizzas (σ : gmap loc object) : gmap loc Pizza :=
  omap (λ o, match o with OPizza p => Some p | OBuilder _ => None end) σ.

(** The [Builder] objects of a store. *)
Definition Builders (σ : gmap loc object) : gmap loc Builder :=
  omap (λ o, match o with OBuilder b => Some b | OPizza _ => None end) σ.

(** [p1] and [p2] are snapshots of the builder [b] at [l]: the three are
    different objects, each [Pizza] shows the specification [b] holds, and
    whatever is written over one of the three objects, the other [Pizza]
    objects show what they showed. *)
Definition snapshots (σ : gmap loc object) (l : loc) (b : Builder)
           (p1 p2 : loc) : Prop :=
  p1 ≠ p2 ∧ p1 ≠ l ∧ p2 ≠ l ∧
  σ !! l = Some (OBuilder b) ∧
  Pizza_specs p1 σ = Ok (Builder_specs_ b) σ ∧
  Pizza_specs p2 σ = Ok (Builder_specs_ b) σ ∧
  (∀ o, Pizza_specs p2 (<[p1 := o]> σ) = Ok (Builder_specs_ b) (<[p1 := o]> σ)) ∧
  (∀ o, Pizza_specs p1 (<[p2 := o]> σ) = Ok (Builder_specs_ b) (<[p2 := o]> σ)) ∧
  (∀ o, Pizza_specs p1 (<[l := o]> σ) = Ok (Builder_specs_ b) (<[l := o]> σ) ∧
        Pizza_specs p2 (<[l := o]> σ) = Ok (Builder_specs_ b) (<[l := o]> σ)).

End Classes.

(** The value a field holds after a list of assignments to it, [d] being the
    value it held before. *)
Definition last_set {A : Type} (d : A) (l : list A) : A := default d (last l).

Arguments Specs : clear implicits.
Arguments Pizza : clear implicits.
Arguments Builder : clear implicits.
Arguments object : clear implicits.

(** [std::string_view]: a pointer to characters it does not own and a
    length.  Copying a view copies these two words. *)
Module StringView.

Record string_view := mk_string_view {
  sv_data : Z;
  sv_size : nat
}.

(** [constexpr basic_string_view() noexcept]: null pointer, size 0. *)
Definition string_view_init : string_view :=
  {| sv_data := 0; sv_size := 0 |}.

(** [empty()]: [size() == 0]. *)
Definition sv_empty (v : string_view) : bool := Nat.eqb (sv_size v) 0.

(** Conversion of a string literal placed at address [a]. *)
Definition sv_literal (a : Z) (s : string) : string_view :=
  {| sv_data := a; sv_size := String.length s |}.

End StringView.

Import StringView.

(** ** Classic fluent Builder (C++17), source lines 29-68 *)

Module Cpp17.

(** [Pizza::Builder{}]: [specs_] is value-initialised; the string and the
    vector are empty, [size_cm] takes its initialiser [32] (line 33). *)
Definition Specs_init : Specs string :=
  {| crust := ""; size_cm := 32; toppings := [] |}.

Definition new_Builder : M (object string) loc :=
  alloc (OBuilder {| Builder_specs_ := Specs_init |}).

(** [Builder& crust(std::string c) { specs_.crust = std::move(c); return *this; }] *)
Definition Builder_crust (this : loc) (c : string) : M (object string) loc :=
  b ← load_Builder this;
  let s := Builder_specs_ b in
  _ ← assign this (OBuilder {| Builder_specs_ :=
         {| crust := c; size_cm := size_cm s; toppings := toppings s |} |});
  mret this.

(** [Builder& size(int cm) { specs_.size_cm = cm; return *this; }] *)
Definition Builder_size (this : loc) (cm : Z) : M (object string) loc :=
  b ← load_Builder this;
  let s := Builder_specs_ b in
  _ ← assign this (OBuilder {| Builder_specs_ :=
         {| crust := crust s; size_cm := cm; toppings := toppings s |} |});
  mret this.

(** [Builder& addTopping(std::string t)
      { specs_.toppings.push_back(std::move(t)); return *this; }] *)
Definition Builder_addTopping (this : loc) (t : string) : M (object string) loc :=
  b ← load_Builder this;
  let s := Builder_specs_ b in
  _ ← assign this (OBuilder {| Builder_specs_ :=
         {| crust := crust s; size_cm := size_cm s;
            toppings := toppings s ++ [t] |} |});
  mret this.

(** [Pizza build() const { return Pizza{specs_}; }] *)
Definition Builder_build (this : loc) : M (object string) loc :=
  b ← load_Builder this;
  new_Pizza (Builder_specs_ b).

(** The object initialised in [main], lines 59-64. *)
Definition margherita : M (object string) loc :=
  b ← new_Builder;
  b ← Builder_crust b "Neapolitan";
  b ← Builder_size b 30;
  b ← Builder_addTopping b "Tomato";
  b ← Builder_addTopping b "Mozzarella";
  Builder_build b.

(** *** Sequences of configuration calls *)

Inductive call :=
| Crust (c : string)
| Size (cm : Z)
| AddTopping (t : string).

Definition invoke (b : loc) (c : call) : M (object string) loc :=
  match c with
  | Crust c => Builder_crust b c
  | Size cm => Builder_size b cm
  | AddTopping t => Builder_addTopping b t
  end.

(** [b.c1(..).c2(..)...]: every call is made on what the previous one
    returned. *)
Fixpoint chain (b : loc) (cs : list call) : M (object string) loc :=
  match cs with
  | [] => mret b
  | c :: cs => b' ← invoke b c; chain b' cs
  end.

(** The arguments a sequence of calls passes, per member function. *)
Definition crusts (cs : list call) : list string :=
  omap (λ c, match c with Crust x => Some x | _ => None end) cs.
Definition sizes (cs : list call) : list Z :=
  omap (λ c, match c with Size x => Some x | _ => None end) cs.
Definition added (cs : list call) : list string :=
  omap (λ c, match c with AddTopping x => Some x | _ => None end) cs.

(** What the specification says a builder holds after the calls [cs] when
    it held [s] before: per field the last value set, the former value
    where none was set; the toppings added, in the order of the calls,
    after the former ones. *)
Definition settled (s : Specs string) (cs : list call) : Specs string :=
  {| crust := last_set (crust s) (crusts cs);
     size_cm := last_set (size_cm s) (sizes cs);
     toppings := toppings s ++ added cs |}.

(** [Pizza::Builder{}.c1(..)...cn(..).build()] and the view of its result,
    [Pizza::Builder{}.c1(..)...cn(..).build().specs()]. *)
Definition build_after (cs : list call) : M (object string) loc :=
  b ← new_Builder; b' ← chain b cs; Builder_build b'.

Definition view_after (cs : list call) : M (object string) (Specs string) :=
  p ← build_after cs; Pizza_specs p.

(** *** The public interface, as requests to a store of objects *)

Inductive request :=
| RNewBuilder
| RCrust (b : loc) (c : string)
| RSize (b : loc) (cm : Z)
| RAddTopping (b : loc) (t : string)
| RBuild (b : loc)
| RSpecs (p : loc).

Inductive reply :=
| Ref (l : loc)
| View (s : Specs string).

Definition serve (r : request) : M (object string) reply :=
  match r with
  | RNewBuilder => Ref <$> new_Builder
  | RCrust b c => Ref <$> Builder_crust b c
  | RSize b cm => Ref <$> Builder_size b cm
  | RAddTopping b t => Ref <$> Builder_addTopping b t
  | RBuild b => Ref <$> Builder_build b
  | RSpecs p => View <$> Pizza_specs p
  end.

(** [r] is a call of [build()] and [v] is the [Pizza] at [k]. *)
Definition built (r : request) (v : reply) (k : loc) : Prop :=
  ∃ b, r = RBuild b ∧ v = Ref k.

End Cpp17.

(** ** constexpr-friendly Builder (C++20), source lines 80-132 *)

Module Cpp20.

(** *** The concept [InRange] (lines 80-81)

    [template<int Min, int Max>
     concept InRange = requires(int v) { (v >= Min && v <= Max); };]

    The body is a simple requirement: it asks that the expression be valid
    for a parameter [v] of the declared type.  The expression is not
    evaluated, and [v] has no value. *)

Inductive type := t_int | t_bool.

Inductive expr :=
| e_param (t : type)
| e_const (n : Z)
| e_ge (a b : expr)
| e_le (a b : expr)
| e_and (a b : expr).

(** The type of a valid expression: the comparisons take two operands of
    arithmetic type, [&&] two operands that convert to [bool]; each yields
    [bool]. *)
Fixpoint type_of (e : expr) : option type :=
  match e with
  | e_param t => Some t
  | e_const _ => Some t_int
  | e_ge a b | e_le a b | e_and a b =>
      match type_of a, type_of b with
      | Some _, Some _ => Some t_bool
      | _, _ => None
      end
  end.

Definition simple_requirement (e : expr) : bool :=
  match type_of e with Some _ => true | None => false end.

Definition InRange (Min Max : Z) : bool :=
  simple_requirement
    (e_and (e_ge (e_param t_int) (e_const Min))
           (e_le (e_param t_int) (e_const Max))).

(** Template parameters and template arguments, by kind. *)
Inductive parameter := type_parameter | int_parameter.

Inductive argument :=
| type_argument (t : type)
| int_argument (n : Z).

(** [template<int Min, int Max>]: the parameters of [InRange]. *)
Definition InRange_parameters : list parameter :=
  [int_parameter; int_parameter].

Definition fits (p : parameter) (a : argument) : bool :=
  match p, a with
  | type_parameter, type_argument _ => true
  | int_parameter, int_argument _ => true
  | _, _ => false
  end.

(** A template-id is well-formed when it gives every parameter one argument
    of its kind. *)
Fixpoint template_id (ps : list parameter) (args : list argument) : bool :=
  match ps, args with
  | [], [] => true
  | p :: ps, a :: args => fits p a && template_id ps args
  | _, _ => false
  end.

(** The type-constraint [InRange<Min, Max> Size] on a template parameter
    [Size] (line 97) stands for the constraint [InRange<Size, Min, Max>]: the
    constrained type becomes the first argument of the concept. *)
Definition InRange_type_constraint (Size : type) (Min Max : Z) : bool :=
  template_id InRange_parameters
              [type_argument Size; int_argument Min; int_argument Max]
  && InRange Min Max.

(** The value the expression of the requirement would have for a given
    [v]; no definition of the program uses it. *)
Definition in_range (Min Max v : Z) : bool :=
  ((Min <=? v) && (v <=? Max))%Z.

(** *** The classes *)

(** [Pizza::Builder{}]: [size_cm] takes its initialiser [32] (line 87). *)
Definition Specs_init : Specs string_view :=
  {| crust := string_view_init; size_cm := 32; toppings := [] |}.

Definition new_Builder : M (object string_view) loc :=
  alloc (OBuilder {| Builder_specs_ := Specs_init |}).

(** [constexpr Builder& crust(std::string_view c) { specs_.crust = c; return *this; }] *)
Definition Builder_crust (this : loc) (c : string_view)
  : M (object string_view) loc :=
  b ← load_Builder this;
  let s := Builder_specs_ b in
  _ ← assign this (OBuilder {| Builder_specs_ :=
         {| crust := c; size_cm := size_cm s; toppings := toppings s |} |});
  mret this.

(** [template<InRange<20, 60> Size>
     constexpr Builder& size(Size cm) { specs_.size_cm = cm; return *this; }]

    [Size] is deduced from the argument, an [int]; the constraint is on
    [Size].  A call whose constraint is ill-formed or not satisfied is
    refused in translation.  [cm] is converted to [int] by the
    assignment. *)
Definition Builder_size (this : loc) (cm : Z) : M (object string_view) loc :=
  if InRange_type_constraint t_int 20 60 then
    b ← load_Builder this;
    let s := Builder_specs_ b in
    _ ← assign this (OBuilder {| Builder_specs_ :=
           {| crust := crust s; size_cm := cm; toppings := toppings s |} |});
    mret this
  else refuse.

(** [constexpr Builder& toppings(R&& range) {
       specs_.toppings.assign(std::ranges::begin(range), std::ranges::end(range));
       return *this; }]
    [range] is given by its elements, converted to [std::string_view]. *)
Definition Builder_toppings (this : loc) (range : list string_view)
  : M (object string_view) loc :=
  b ← load_Builder this;
  let s := Builder_specs_ b in
  _ ← assign this (OBuilder {| Builder_specs_ :=
         {| crust := crust s; size_cm := size_cm s; toppings := range |} |});
  mret this.

(** [constexpr Pizza build() const { return Pizza{specs_}; }] *)
Definition Builder_build (this : loc) : M (object string_view) loc :=
  b ← load_Builder this;
  new_Pizza (Builder_specs_ b).

(** [hawaiian()], lines 119-126; the three literals are given addresses. *)
Definition hawaiian : M (object string_view) loc :=
  b ← new_Builder;
  b ← Builder_crust b (sv_literal 4096 "Pan");
  b ← Builder_size b 40;
  b ← Builder_toppings b [sv_literal 4100 "Ham"; sv_literal 4104 "Pineapple"];
  Builder_build b.

(** *** Sequences of configuration calls *)

Inductive call :=
| Crust (c : string_view)
| Size (cm : Z)
| Toppings (range : list string_view).

Definition invoke (b : loc) (c : call) : M (object string_view) loc :=
  match c with
  | Crust c => Builder_crust b c
  | Size cm => Builder_size b cm
  | Toppings r => Builder_toppings b r
  end.

Fixpoint chain (b : loc) (cs : list call) : M (object string_view) loc :=
  match cs with
  | [] => mret b
  | c :: cs => b' ← invoke b c; chain b' cs
  end.

Definition crusts (cs : list call) : list string_view :=
  omap (λ c, match c with Crust x => Some x | _ => None end) cs.
Definition sizes (cs : list call) : list Z :=
  omap (λ c, match c with Size x => Some x | _ => None end) cs.
Definition ranges (cs : list call) : list (list string_view) :=
  omap (λ c, match c with Toppings x => Some x | _ => None end) cs.

(** Per field the last value set, the former value where none was set. *)
Definition settled (s : Specs string_view) (cs : list call) : Specs string_view :=
  {| crust := last_set (crust s) (crusts cs);
     size_cm := last_set (size_cm s) (sizes cs);
     toppings := last_set (toppings s) (ranges cs) |}.

(** [Pizza::Builder{}.c1(..)...cn(..).build()] and the view of its result,
    [Pizza::Builder{}.c1(..)...cn(..).build().specs()]. *)
Definition build_after (cs : list call) : M (object string_view) loc :=
  b ← new_Builder; b' ← chain b cs; Builder_build b'.

Definition view_after (cs : list call) : M (object string_view) (Specs string_view) :=
  p ← build_after cs; Pizza_specs p.

End Cpp20.

(** ** "Deducing this" Builder (C++23), source lines 144-200 *)

Module Cpp23.

(** [Pizza::Builder{}]: [size_cm] takes its initialiser [32] (line 148). *)
Definition Specs_init : Specs string_view :=
  {| crust := string_view_init; size_cm := 32; toppings := [] |}.

Definition new_Builder : M (object string_view) loc :=
  alloc (OBuilder {| Builder_specs_ := Specs_init |}).

(** The explicit object parameter [this Builder self] is a [Builder] of its
    own, copy-initialised from the object the member function is called on.
    The functions return [self]; the object they return is identified with
    the parameter. *)
Definition copy_Builder (obj : loc) : M (object string_view) loc :=
  b ← load_Builder obj;
  alloc (OBuilder b).

(** [auto crust(this Builder self, std::string_view c)
      { self.specs_.crust = c; return self; }] *)
Definition Builder_crust (obj : loc) (c : string_view)
  : M (object string_view) loc :=
  self ← copy_Builder obj;
  b ← load_Builder self;
  let s := Builder_specs_ b in
  _ ← assign self (OBuilder {| Builder_specs_ :=
         {| crust := c; size_cm := size_cm s; toppings := toppings s |} |});
  mret self.

(** [auto size(this Builder self, int cm)
      { self.specs_.size_cm = cm; return self; }] *)
Definition Builder_size (obj : loc) (cm : Z) : M (object string_view) loc :=
  self ← copy_Builder obj;
  b ← load_Builder self;
  let s := Builder_specs_ b in
  _ ← assign self (OBuilder {| Builder_specs_ :=
         {| crust := crust s; size_cm := cm; toppings := toppings s |} |});
  mret self.

(** [auto add(this Builder self, std::string_view topping)
      { self.specs_.toppings.push_back(topping); return self; }] *)
Definition Builder_add (obj : loc) (topping : string_view)
  : M (object string_view) loc :=
  self ← copy_Builder obj;
  b ← load_Builder self;
  let s := Builder_specs_ b in
  _ ← assign self (OBuilder {| Builder_specs_ :=
         {| crust := crust s; size_cm := size_cm s;
            toppings := toppings s ++ [topping] |} |});
  mret self.

(** [explicit Pizza(const Specs& s) : specs_{s} {}] at line 181 is declared
    without [constexpr]. *)
Definition Pizza_constructor : specifier := no_specifier.

(** [consteval Pizza build(this const Builder self) {
       if (self.specs_.crust.empty())
           throw "Crust type required!";
       return Pizza{self.specs_}; }] *)
Definition Builder_build (obj : loc) : M (object string_view) loc :=
  constant_expression
    (self ← copy_Builder obj;
     b ← load_Builder self;
     if sv_empty (crust (Builder_specs_ b))
     then throw "Crust type required!"
     else called_in_constant_expression Pizza_constructor
            (new_Pizza (Builder_specs_ b))).

(** The object initialised in [main], lines 189-197; the five literals are
    given addresses. *)
Definition quattro : M (object string_view) loc :=
  b ← new_Builder;
  b ← Builder_crust b (sv_literal 4096 "Roman");
  b ← Builder_size b 33;
  b ← Builder_add b (sv_literal 4102 "Mozzarella");
  b ← Builder_add b (sv_literal 4113 "Parmesan");
  b ← Builder_add b (sv_literal 4122 "Gorgonzola");
  b ← Builder_add b (sv_literal 4133 "Ricotta");
  Builder_build b.

(** *** Sequences of configuration calls *)

Inductive call :=
| Crust (c : string_view)
| Size (cm : Z)
| Add (topping : string_view).

Definition invoke (b : loc) (c : call) : M (object string_view) loc :=
  match c with
  | Crust c => Builder_crust b c
  | Size cm => Builder_size b cm
  | Add t => Builder_add b t
  end.

Fixpoint chain (b : loc) (cs : list call) : M (object string_view) loc :=
  match cs with
  | [] => mret b
  | c :: cs => b' ← invoke b c; chain b' cs
  end.

Definition crusts (cs : list call) : list string_view :=
  omap (λ c, match c with Crust x => Some x | _ => None end) cs.
Definition sizes (cs : list call) : list Z :=
  omap (λ c, match c with Size x => Some x | _ => None end) cs.
Definition added (cs : list call) : list string_view :=
  omap (λ c, match c with Add x => Some x | _ => None end) cs.

(** Per field the last value set, the former value where none was set;
    the toppings added, in the order of the calls, after the former ones. *)
Definition settled (s : Specs string_view) (cs : list call) : Specs string_view :=
  {| crust := last_set (crust s) (crusts cs);
     size_cm := last_set (size_cm s) (sizes cs);
     toppings := toppings s ++ added cs |}.

(** [Pizza::Builder{}.c1(..)...cn(..).build()] and the view of its result,
    [Pizza::Builder{}.c1(..)...cn(..).build().specs()]. *)
Definition build_after (cs : list call) : M (object string_view) loc :=
  b ← new_Builder; b' ← chain b cs; Builder_build b'.

Definition view_after (cs : list call) : M (object string_view) (Specs string_view) :=
  p ← build_after cs; Pizza_specs p.

(** *** The public interface, as requests to a store of objects *)

Inductive request :=
| RNewBuilder
| RCrust (b : loc) (c : string_view)
| RSize (b : loc) (cm : Z)
| RAdd (b : loc) (topping : string_view)
| RBuild (b : loc)
| RSpecs (p : loc).

Inductive reply :=
| Ref (l : loc)
| View (s : Specs string_view).

Definition serve (r : request) : M (object string_view) reply :=
  match r with
  | RNewBuilder => Ref <$> new_Builder
  | RCrust b c => Ref <$> Builder_crust b c
  | RSize b cm => Ref <$> Builder_size b cm
  | RAdd b t => Ref <$> Builder_add b t
  | RBuild b => Ref <$> Builder_build b
  | RSpecs p => View <$> Pizza_specs p
  end.

End Cpp23.

(** ** Histories of requests

    A client makes one request after another on the same store.  A request
    that throws leaves the store as the exception found it, and the client
    goes on.  [play] gives the events in the order they happened and the
    store the last one left. *)

Section Histories.
Context {O Req Rep : Type} (serve : Req → M O Rep).

Inductive event :=
| Returned (r : Req) (v : Rep)
| Threw (r : Req) (what : string).

Fixpoint play (rs : list Req) (σ : gmap loc O)
  : option (list event * gmap loc O) :=
  match rs with
  | [] => Some ([], σ)
  | r :: rs =>
      match serve r σ with
      | Ok v σ' =>
          match play rs σ' with
          | Some (es, σ'') => Some (Returned r v :: es, σ'')
          | None => None
          end
      | Thrown w σ' =>
          match play rs σ' with
          | Some (es, σ'') => Some (Threw r w :: es, σ'')
          | None => None
          end
      | Refused | Undefined => None
      end
  end.

End Histories.

(** ** Vocabulary for further properties *)

(** The field of [Specs] a configuration call of the C++17 builder writes. *)
Inductive field := f_crust | f_size | f_toppings.

Definition field_17 (c : Cpp17.call) : field :=
  match c with
  | Cpp17.Crust _ => f_crust
  | Cpp17.Size _ => f_size
  | Cpp17.AddTopping _ => f_toppings
  end.

(** The builder a request to the C++17 interface assigns to: the receiver of
    a configuration call.  [Builder{}], [build()] (a [const] member) and
    [specs()] assign to no object that exists. *)
Definition written_17 (r : Cpp17.request) : option loc :=
  match r with
  | Cpp17.RCrust b _ | Cpp17.RSize b _ | Cpp17.RAddTopping b _ => Some b
  | Cpp17.RNewBuilder | Cpp17.RBuild _ | Cpp17.RSpecs _ => None
  end.

(** Class [Pizza] of the C++17 program (lines 29-55) declares no copy or move
    operation, deletes none, and its data member [specs_] is not [const]: its
    copy constructor and copy assignment operator are implicitly declared,
    public, and copy the member. *)
Module Implicit17.

(** [Pizza(const Pizza& other)]: [Pizza c = a;] *)
Definition Pizza_copy (other : loc) : M (object string) loc :=
  p ← load_Pizza other;
  alloc (OPizza {| Pizza_specs_ := Pizza_specs_ p |}).

(** [Pizza& operator=(const Pizza& other)]: [a = c;] *)
Definition Pizza_assign (this other : loc) : M (object string) loc :=
  p ← load_Pizza other;
  _ ← load_Pizza this;
  _ ← assign this (OPizza {| Pizza_specs_ := Pizza_specs_ p |});
  mret this.

End Implicit17.

(** The public interface of the C++20 program (lines 83-116), as requests to
    a store of objects. *)
Module Requests20.
Import Cpp20.

Inductive request :=
| RNewBuilder
| RCrust (b : loc) (c : string_view)
| RSize (b : loc) (cm : Z)
| RToppings (b : loc) (range : list string_view)
| RBuild (b : loc)
| RSpecs (p : loc).

Inductive reply :=
| Ref (l : loc)
| View (s : Specs string_view).

Definition serve (r : request) : M (object string_view) reply :=
  match r with
  | RNewBuilder => Ref <$> new_Builder
  | RCrust b c => Ref <$> Builder_crust b c
  | RSize b cm => Ref <$> Builder_size b cm
  | RToppings b range => Ref <$> Builder_toppings b range
  | RBuild b => Ref <$> Builder_build b
  | RSpecs p => View <$> Pizza_specs p
  end.

(** [r] is a call of [build()] and [v] is the [Pizza] at [k]. *)
Definition built (r : request) (v : reply) (k : loc) : Prop :=
  ∃ b, r = RBuild b ∧ v = Ref k.

End Requests20.

(** * Properties *)

(** ** The store *)

Section StoreFacts.
Context {O : Type}.
Implicit Types σ : gmap loc O.

Lemma alloc_fresh σ : σ !! fresh (dom σ) = None.
Proof. apply not_elem_of_dom, is_fresh. Qed.

Lemma alloc_run σ o : alloc o σ = Ok (fresh (dom σ)) (<[fresh (dom σ) := o]> σ).
Proof. reflexivity. Qed.

Lemma bind_Ok {A B} (m : M O A) (k : A → M O B) σ a σ' :
  m σ = Ok a σ' → (m ≫= k) σ = k a σ'.
Proof. intros H. unfold mbind, M_bind, bind. by rewrite H. Qed.

Lemma bind_Refused {A B} (m : M O A) (k : A → M O B) σ :
  m σ = Refused → (m ≫= k) σ = Refused.
Proof. intros H. unfold mbind, M_bind, bind. by rewrite H. Qed.

Lemma fmap_inv_Ok {A B} (m : M O A) (f : A → B) σ v σ' :
  (f <$> m) σ = Ok v σ' → ∃ a, m σ = Ok a σ' ∧ v = f a.
Proof.
  unfold fmap, M_fmap, bind, ret. destruct (m σ); try done.
  intros [= <- <-]. eauto.
Qed.

Lemma fmap_inv_Thrown {A B} (m : M O A) (f : A → B) σ w σ' :
  (f <$> m) σ = Thrown w σ' → m σ = Thrown w σ'.
Proof.
  unfold fmap, M_fmap, bind, ret. destruct (m σ); try done.
  by intros [= <- <-].
Qed.

End StoreFacts.

Section ClassFacts.
Context {T : Type}.
Implicit Types σ : gmap loc (object T).

Lemma lookup_Pizzas σ k p :
  Pizzas σ !! k = Some p ↔ σ !! k = Some (OPizza p).
Proof.
  unfold Pizzas. rewrite lookup_omap.
  destruct (σ !! k) as [[b|q]|]; simpl; split; congruence.
Qed.

Lemma lookup_Builders σ k b :
  Builders σ !! k = Some b ↔ σ !! k = Some (OBuilder b).
Proof.
  unfold Builders. rewrite lookup_omap.
  destruct (σ !! k) as [[b'|q]|]; simpl; split; congruence.
Qed.

Lemma Pizzas_insert_Pizza σ l p :
  Pizzas (<[l := OPizza p]> σ) = <[l := p]> (Pizzas σ).
Proof. unfold Pizzas. by rewrite omap_insert_Some with (y := p). Qed.

(** Writing a [Builder] where no [Pizza] lives changes no [Pizza]. *)
Lemma Pizzas_insert_Builder σ l b :
  Pizzas σ !! l = None → Pizzas (<[l := OBuilder b]> σ) = Pizzas σ.
Proof.
  intros H. unfold Pizzas in *. rewrite omap_insert_None by done.
  by apply delete_id.
Qed.

Lemma Pizzas_fresh σ : Pizzas σ !! fresh (dom σ) = None.
Proof. unfold Pizzas. by rewrite lookup_omap, alloc_fresh. Qed.

Lemma Pizzas_at_Builder σ l b : σ !! l = Some (OBuilder b) → Pizzas σ !! l = None.
Proof. intros H. unfold Pizzas. by rewrite lookup_omap, H. Qed.

Lemma load_Builder_run σ l b :
  σ !! l = Some (OBuilder b) → load_Builder l σ = Ok b σ.
Proof.
  intros H. unfold load_Builder, load, mbind, M_bind, bind. by rewrite H.
Qed.

Lemma load_Pizza_run σ l p :
  σ !! l = Some (OPizza p) → load_Pizza l σ = Ok p σ.
Proof.
  intros H. unfold load_Pizza, load, mbind, M_bind, bind. by rewrite H.
Qed.

Lemma assign_run σ l o o' :
  σ !! l = Some o → assign l o' σ = Ok () (<[l := o']> σ).
Proof. intros H. unfold assign. by rewrite H. Qed.

(** A call through a reference that designates no [Builder] is undefined;
    so is [specs()] through one that designates no [Pizza]. *)
Lemma load_Builder_undefined σ l :
  Builders σ !! l = None → load_Builder l σ = Undefined.
Proof.
  unfold Builders. rewrite lookup_omap.
  unfold load_Builder, load, mbind, M_bind, bind.
  by destruct (σ !! l) as [[b|q]|].
Qed.

Lemma load_Pizza_undefined σ l :
  Pizzas σ !! l = None → load_Pizza l σ = Undefined.
Proof.
  unfold Pizzas. rewrite lookup_omap.
  unfold load_Pizza, load, mbind, M_bind, bind.
  by destruct (σ !! l) as [[b|q]|].
Qed.

Lemma specs_inv σ l s σ' :
  Pizza_specs l σ = Ok s σ' →
  σ' = σ ∧ ∃ p, σ !! l = Some (OPizza p) ∧ s = Pizza_specs_ p.
Proof.
  unfold Pizza_specs, mbind, M_bind, bind.
  destruct (Pizzas σ !! l) as [p|] eqn:E.
  - apply lookup_Pizzas in E. rewrite (load_Pizza_run _ _ _ E).
    intros [= <- <-]. eauto.
  - by rewrite (load_Pizza_undefined _ _ E).
Qed.

Lemma specs_run σ l p :
  σ !! l = Some (OPizza p) → Pizza_specs l σ = Ok (Pizza_specs_ p) σ.
Proof.
  intros H. unfold Pizza_specs.
  by rewrite (bind_Ok _ _ _ _ _ (load_Pizza_run _ _ _ H)).
Qed.

Lemma snapshots_intro σ l b p1 p2 :
  p1 ≠ p2 → p1 ≠ l → p2 ≠ l →
  σ !! l = Some (OBuilder b) →
  σ !! p1 = Some (OPizza (mkPizza (Builder_specs_ b))) →
  σ !! p2 = Some (OPizza (mkPizza (Builder_specs_ b))) →
  snapshots σ l b p1 p2.
Proof.
  intros H12 H1 H2 Hl Hp1 Hp2. unfold snapshots.
  split_and!; try done.
  - by rewrite (specs_run _ _ _ Hp1).
  - by rewrite (specs_run _ _ _ Hp2).
  - intros o. rewrite (specs_run _ _ (mkPizza (Builder_specs_ b))); [done|].
    by rewrite lookup_insert_ne.
  - intros o. rewrite (specs_run _ _ (mkPizza (Builder_specs_ b))); [done|].
    by rewrite lookup_insert_ne.
  - intros o.
    split; (rewrite (specs_run _ _ (mkPizza (Builder_specs_ b))); [done|]);
      by rewrite lookup_insert_ne.
Qed.

End ClassFacts.

Lemma last_set_cons {A} (d x : A) l : last_set d (x :: l) = last_set x l.
Proof.
  unfold last_set. revert d x. induction l as [|y l IH]; intros d x; [done|].
  change (last (x :: y :: l)) with (last (y :: l)).
  by rewrite (IH d y), (IH x y).
Qed.

(** Runs a call whose receiver is known to the store. *)
Ltac run_call H :=
  unfold mbind, M_bind, bind;
  rewrite ?(load_Builder_run _ _ _ H), ?(load_Pizza_run _ _ _ H);
  rewrite ?(assign_run _ _ _ _ H); simpl.

(** ** The C++17 builder *)

Module Facts17.
Import Cpp17.
Implicit Types σ : gmap loc (object string).

Lemma crust_run_17 σ l b c :
  σ !! l = Some (OBuilder b) →
  Builder_crust l c σ =
  Ok l (<[l := OBuilder (mkBuilder (mkSpecs c (size_cm (Builder_specs_ b))
                                            (toppings (Builder_specs_ b))))]> σ).
Proof. intros H. unfold Builder_crust. by run_call H. Qed.

Lemma size_run_17 σ l b cm :
  σ !! l = Some (OBuilder b) →
  Builder_size l cm σ =
  Ok l (<[l := OBuilder (mkBuilder (mkSpecs (crust (Builder_specs_ b)) cm
                                            (toppings (Builder_specs_ b))))]> σ).
Proof. intros H. unfold Builder_size. by run_call H. Qed.

Lemma addTopping_run_17 σ l b t :
  σ !! l = Some (OBuilder b) →
  Builder_addTopping l t σ =
  Ok l (<[l := OBuilder (mkBuilder (mkSpecs (crust (Builder_specs_ b))
                                            (size_cm (Builder_specs_ b))
                                            (toppings (Builder_specs_ b) ++ [t])))]> σ).
Proof. intros H. unfold Builder_addTopping. by run_call H. Qed.

Lemma build_run_17 σ l b :
  σ !! l = Some (OBuilder b) →
  Builder_build l σ =
  Ok (fresh (dom σ)) (<[fresh (dom σ) := OPizza (mkPizza (Builder_specs_ b))]> σ).
Proof. intros H. unfold Builder_build. by run_call H. Qed.

Lemma specs_run_17 σ l p :
  σ !! l = Some (OPizza p) → Pizza_specs l σ = Ok (Pizza_specs_ p) σ.
Proof. intros H. unfold Pizza_specs. by run_call H. Qed.

Lemma settled_nil_17 s : settled s [] = s.
Proof. destruct s. unfold settled. simpl. by rewrite app_nil_r. Qed.

Lemma settled_cons_17 s c cs : settled s (c :: cs) = settled (settled s [c]) cs.
Proof.
  destruct s as [cr sz tp], c; unfold settled; simpl;
    rewrite ?last_set_cons, ?app_nil_r, <- ?app_assoc; done.
Qed.

Lemma invoke_run_17 σ l s c :
  σ !! l = Some (OBuilder (mkBuilder s)) →
  invoke l c σ = Ok l (<[l := OBuilder (mkBuilder (settled s [c]))]> σ).
Proof.
  intros H. destruct c; simpl.
  - rewrite (crust_run_17 _ _ _ _ H). unfold settled. simpl.
    by rewrite app_nil_r.
  - rewrite (size_run_17 _ _ _ _ H). unfold settled. simpl.
    by rewrite app_nil_r.
  - by rewrite (addTopping_run_17 _ _ _ _ H).
Qed.

(** A chain of calls works on the one builder it started at and leaves in
    it what the specification says. *)
Lemma chain_run_17 cs : ∀ σ l s,
  σ !! l = Some (OBuilder (mkBuilder s)) →
  chain l cs σ = Ok l (<[l := OBuilder (mkBuilder (settled s cs))]> σ).
Proof.
  induction cs as [|c cs IH]; intros σ l s H.
  - rewrite settled_nil_17. simpl. by rewrite insert_id.
  - simpl. unfold mbind, M_bind, bind. rewrite (invoke_run_17 _ _ _ _ H).
    rewrite (IH _ l (settled s [c])) by apply lookup_insert_eq.
    by rewrite insert_insert_eq, <- settled_cons_17.
Qed.

End Facts17.

(** ** The C++20 builder *)

Module Facts20.
Import Cpp20.
Implicit Types σ : gmap loc (object string_view).

(** The requirement of [InRange] is a valid expression whatever the
    bounds. *)
Lemma InRange_satisfied Min Max : InRange Min Max = true.
Proof. reflexivity. Qed.

Lemma crust_run_20 σ l b c :
  σ !! l = Some (OBuilder b) →
  Builder_crust l c σ =
  Ok l (<[l := OBuilder (mkBuilder (mkSpecs c (size_cm (Builder_specs_ b))
                                            (toppings (Builder_specs_ b))))]> σ).
Proof. intros H. unfold Builder_crust. by run_call H. Qed.

(** The type-constraint of [size] gives [InRange] a type where it has an
    [int] parameter, and three arguments where it has two parameters. *)
Lemma InRange_type_constraint_ill_formed Size Min Max :
  InRange_type_constraint Size Min Max = false.
Proof. reflexivity. Qed.

Lemma size_refused_20 σ l cm : Builder_size l cm σ = Refused.
Proof. reflexivity. Qed.

Lemma toppings_run_20 σ l b r :
  σ !! l = Some (OBuilder b) →
  Builder_toppings l r σ =
  Ok l (<[l := OBuilder (mkBuilder (mkSpecs (crust (Builder_specs_ b))
                                            (size_cm (Builder_specs_ b)) r))]> σ).
Proof. intros H. unfold Builder_toppings. by run_call H. Qed.

Lemma build_run_20 σ l b :
  σ !! l = Some (OBuilder b) →
  Builder_build l σ =
  Ok (fresh (dom σ)) (<[fresh (dom σ) := OPizza (mkPizza (Builder_specs_ b))]> σ).
Proof. intros H. unfold Builder_build. by run_call H. Qed.

Lemma settled_nil_20 s : settled s [] = s.
Proof. by destruct s. Qed.

Lemma settled_cons_20 s c cs : settled s (c :: cs) = settled (settled s [c]) cs.
Proof.
  destruct s as [cr sz tp], c; unfold settled; simpl;
    rewrite ?last_set_cons; done.
Qed.

Lemma sizes_cons_20 c cs :
  sizes (c :: cs) = [] ↔ sizes [c] = [] ∧ sizes cs = [].
Proof. unfold sizes. destruct c; simpl; split; (intros [? ?] || intros ?); done. Qed.

Lemma invoke_run_20 σ l s c :
  sizes [c] = [] →
  σ !! l = Some (OBuilder (mkBuilder s)) →
  invoke l c σ = Ok l (<[l := OBuilder (mkBuilder (settled s [c]))]> σ).
Proof.
  intros Hc H. destruct c; simpl.
  - by rewrite (crust_run_20 _ _ _ _ H).
  - discriminate Hc.
  - by rewrite (toppings_run_20 _ _ _ _ H).
Qed.

(** A chain without [size] calls works on the one builder it started at and
    leaves in it what the specification says. *)
Lemma chain_run_20 cs : ∀ σ l s,
  sizes cs = [] →
  σ !! l = Some (OBuilder (mkBuilder s)) →
  chain l cs σ = Ok l (<[l := OBuilder (mkBuilder (settled s cs))]> σ).
Proof.
  induction cs as [|c cs IH]; intros σ l s Hs H.
  - rewrite settled_nil_20. simpl. by rewrite insert_id.
  - apply sizes_cons_20 in Hs as [Hc Hs].
    simpl. unfold mbind, M_bind, bind. rewrite (invoke_run_20 _ _ _ _ Hc H).
    rewrite (IH _ l (settled s [c])) by (done || apply lookup_insert_eq).
    by rewrite insert_insert_eq, <- settled_cons_20.
Qed.

(** A chain with a [size] call is refused. *)
Lemma chain_refused_20 cs : ∀ σ l s,
  sizes cs ≠ [] →
  σ !! l = Some (OBuilder (mkBuilder s)) →
  chain l cs σ = Refused.
Proof.
  induction cs as [|c cs IH]; intros σ l s Hs H; [done|].
  destruct (decide (sizes [c] = [])) as [Hc|Hc].
  - simpl. rewrite (bind_Ok _ _ _ _ _ (invoke_run_20 _ _ _ _ Hc H)).
    apply (IH _ l (settled s [c])); [|apply lookup_insert_eq].
    intros E. apply Hs. by apply sizes_cons_20.
  - by destruct c.
Qed.

End Facts20.

(** ** The C++23 builder *)

Module Facts23.
Import Cpp23.
Implicit Types σ : gmap loc (object string_view).

Lemma copy_run_23 σ l b :
  σ !! l = Some (OBuilder b) →
  copy_Builder l σ = Ok (fresh (dom σ)) (<[fresh (dom σ) := OBuilder b]> σ).
Proof. intros H. unfold copy_Builder. by run_call H. Qed.

(** Runs the copy of the receiver into [self] and the load of [self]. *)
Ltac run_self H :=
  unfold mbind, M_bind, bind; rewrite (copy_run_23 _ _ _ H);
  rewrite (load_Builder_run _ _ _ (lookup_insert_eq _ _ _));
  rewrite ?(assign_run _ _ _ _ (lookup_insert_eq _ _ _)); simpl;
  rewrite ?insert_insert_eq.

Lemma crust_run_23 σ l b c :
  σ !! l = Some (OBuilder b) →
  Builder_crust l c σ =
  Ok (fresh (dom σ))
     (<[fresh (dom σ) :=
          OBuilder (mkBuilder (mkSpecs c (size_cm (Builder_specs_ b))
                                       (toppings (Builder_specs_ b))))]> σ).
Proof. intros H. unfold Builder_crust. by run_self H. Qed.

Lemma size_run_23 σ l b cm :
  σ !! l = Some (OBuilder b) →
  Builder_size l cm σ =
  Ok (fresh (dom σ))
     (<[fresh (dom σ) :=
          OBuilder (mkBuilder (mkSpecs (crust (Builder_specs_ b)) cm
                                       (toppings (Builder_specs_ b))))]> σ).
Proof. intros H. unfold Builder_size. by run_self H. Qed.

Lemma add_run_23 σ l b t :
  σ !! l = Some (OBuilder b) →
  Builder_add l t σ =
  Ok (fresh (dom σ))
     (<[fresh (dom σ) :=
          OBuilder (mkBuilder (mkSpecs (crust (Builder_specs_ b))
                                       (size_cm (Builder_specs_ b))
                                       (toppings (Builder_specs_ b) ++ [t])))]> σ).
Proof. intros H. unfold Builder_add. by run_self H. Qed.

(** No call of [build()] is a constant expression: with an empty crust the
    evaluation reaches the throw-expression, otherwise the constructor of
    [Pizza], which is not [constexpr]. *)
Lemma build_refused_23 σ l b :
  σ !! l = Some (OBuilder b) → Builder_build l σ = Refused.
Proof.
  intros H. unfold Builder_build, constant_expression. run_self H.
  by destruct (sv_empty _).
Qed.

Lemma settled_nil_23 s : settled s [] = s.
Proof. destruct s. unfold settled. simpl. by rewrite app_nil_r. Qed.

Lemma settled_cons_23 s c cs : settled s (c :: cs) = settled (settled s [c]) cs.
Proof.
  destruct s as [cr sz tp], c; unfold settled; simpl;
    rewrite ?last_set_cons, ?app_nil_r, <- ?app_assoc; done.
Qed.

Lemma invoke_run_23 σ l s c :
  σ !! l = Some (OBuilder (mkBuilder s)) →
  invoke l c σ =
  Ok (fresh (dom σ)) (<[fresh (dom σ) := OBuilder (mkBuilder (settled s [c]))]> σ).
Proof.
  intros H. destruct c; simpl.
  - rewrite (crust_run_23 _ _ _ _ H). unfold settled. simpl.
    by rewrite app_nil_r.
  - rewrite (size_run_23 _ _ _ _ H). unfold settled. simpl.
    by rewrite app_nil_r.
  - by rewrite (add_run_23 _ _ _ _ H).
Qed.

(** A chain of calls ends at a builder that holds what the specification
    says; every object the store held before is as it was, and no [Pizza]
    has appeared. *)
Lemma chain_run_23 cs : ∀ σ l s,
  σ !! l = Some (OBuilder (mkBuilder s)) →
  ∃ l' σ', chain l cs σ = Ok l' σ' ∧
           σ' !! l' = Some (OBuilder (mkBuilder (settled s cs))) ∧
           σ ⊆ σ' ∧ Pizzas σ' = Pizzas σ.
Proof.
  induction cs as [|c cs IH]; intros σ l s H.
  - exists l, σ. by rewrite settled_nil_23.
  - simpl. unfold mbind, M_bind, bind. rewrite (invoke_run_23 _ _ _ _ H).
    destruct (IH (<[fresh (dom σ) := OBuilder (mkBuilder (settled s [c]))]> σ)
                 (fresh (dom σ)) (settled s [c]))
      as (l' & σ' & Hrun & Hl' & Hsub & Hpz); [apply lookup_insert_eq|].
    exists l', σ'. rewrite Hrun, Hl', <- settled_cons_23. split_and!; [done..| |].
    + etrans; [|exact Hsub]. apply insert_subseteq, alloc_fresh.
    + rewrite Hpz. apply Pizzas_insert_Builder, Pizzas_fresh.
Qed.

End Facts23.

(** ** Building after a chain of calls on a new builder *)

Section Built.
Import Facts17 Facts20 Facts23.

(** C++17 and C++20: [build()] returns a new [Pizza] that holds what the
    chain left in the builder. *)
Lemma built_17 (σ : gmap loc (object string)) cs :
  ∃ p σ',
    Cpp17.build_after cs σ = Ok p σ' ∧
    σ !! p = None ∧
    σ' !! p = Some (OPizza (mkPizza (Cpp17.settled Cpp17.Specs_init cs))) ∧
    Pizza_specs p σ' = Ok (Cpp17.settled Cpp17.Specs_init cs) σ'.
Proof.
  unfold Cpp17.build_after, mbind, M_bind, bind, Cpp17.new_Builder. rewrite alloc_run.
  rewrite (chain_run_17 cs _ _ Cpp17.Specs_init) by apply lookup_insert_eq.
  rewrite insert_insert_eq.
  rewrite (build_run_17 _ _ _ (lookup_insert_eq _ _ _)).
  eexists _, _. split; [reflexivity|]. simpl. split_and!.
  - pose proof (alloc_fresh
      (<[fresh (dom σ) := OBuilder (mkBuilder (Cpp17.settled Cpp17.Specs_init cs))]> σ))
      as F.
    apply lookup_insert_None in F. tauto.
  - apply lookup_insert_eq.
  - by rewrite (specs_run_17 _ _ _ (lookup_insert_eq _ _ _)).
Qed.

Lemma built_20 (σ : gmap loc (object string_view)) cs :
  Cpp20.sizes cs = [] →
  ∃ p σ',
    Cpp20.build_after cs σ = Ok p σ' ∧
    σ !! p = None ∧
    σ' !! p = Some (OPizza (mkPizza (Cpp20.settled Cpp20.Specs_init cs))) ∧
    Pizza_specs p σ' = Ok (Cpp20.settled Cpp20.Specs_init cs) σ'.
Proof.
  intros Hs.
  unfold Cpp20.build_after, mbind, M_bind, bind, Cpp20.new_Builder. rewrite alloc_run.
  rewrite (chain_run_20 cs _ _ Cpp20.Specs_init Hs) by apply lookup_insert_eq.
  rewrite insert_insert_eq.
  rewrite (build_run_20 _ _ _ (lookup_insert_eq _ _ _)).
  eexists _, _. split; [reflexivity|]. simpl. split_and!.
  - pose proof (alloc_fresh
      (<[fresh (dom σ) := OBuilder (mkBuilder (Cpp20.settled Cpp20.Specs_init cs))]> σ))
      as F.
    apply lookup_insert_None in F. tauto.
  - apply lookup_insert_eq.
  - by rewrite (specs_run _ _ (mkPizza (Cpp20.settled Cpp20.Specs_init cs))
                  (lookup_insert_eq _ _ _)).
Qed.

(** C++23: a chain on a new builder ends at a builder that holds what the
    chain set, and [build()] on it is refused. *)
Lemma chained_23 (σ : gmap loc (object string_view)) cs :
  ∃ b σ', (b ← Cpp23.new_Builder; Cpp23.chain b cs) σ = Ok b σ' ∧
          σ' !! b = Some (OBuilder (mkBuilder (Cpp23.settled Cpp23.Specs_init cs))).
Proof.
  unfold Cpp23.new_Builder. rewrite (bind_Ok _ _ _ _ _ (alloc_run _ _)).
  destruct (chain_run_23 cs
              (<[fresh (dom σ) := OBuilder (mkBuilder Cpp23.Specs_init)]> σ)
              (fresh (dom σ)) Cpp23.Specs_init)
    as (l' & σ' & Hrun & Hl' & _ & _); [apply lookup_insert_eq|].
  eauto.
Qed.

Lemma built_23 (σ : gmap loc (object string_view)) cs :
  Cpp23.build_after cs σ = Refused.
Proof.
  unfold Cpp23.build_after, Cpp23.new_Builder.
  rewrite (bind_Ok _ _ _ _ _ (alloc_run _ _)).
  destruct (chain_run_23 cs
              (<[fresh (dom σ) := OBuilder (mkBuilder Cpp23.Specs_init)]> σ)
              (fresh (dom σ)) Cpp23.Specs_init)
    as (l' & σ' & Hrun & Hl' & _ & _); [apply lookup_insert_eq|].
  rewrite (bind_Ok _ _ _ _ _ Hrun). by eapply build_refused_23.
Qed.

End Built.

(** ** The programs of the source *)

(** [hawaiian()] calls [size(40)], which is refused in translation. *)
Example hawaiian_refused (σ : gmap loc (object string_view)) :
  Cpp20.hawaiian σ = Refused.
Proof.
  unfold Cpp20.hawaiian, Cpp20.new_Builder.
  rewrite (bind_Ok _ _ _ _ _ (alloc_run _ _)).
  rewrite (bind_Ok _ _ _ _ _
             (Facts20.crust_run_20 _ _ _ _ (lookup_insert_eq _ _ _))).
  reflexivity.
Qed.

(** The initialiser of [quattro] ends in [build()], which is refused in
    translation. *)
Example quattro_refused (σ : gmap loc (object string_view)) :
  Cpp23.quattro σ = Refused.
Proof.
  rewrite <- (built_23 σ
    [Cpp23.Crust (sv_literal 4096 "Roman"); Cpp23.Size 33;
     Cpp23.Add (sv_literal 4102 "Mozzarella"); Cpp23.Add (sv_literal 4113 "Parmesan");
     Cpp23.Add (sv_literal 4122 "Gorgonzola"); Cpp23.Add (sv_literal 4133 "Ricotta")]).
  unfold Cpp23.quattro, Cpp23.build_after. simpl.
  unfold mbind, M_bind, bind, mret, M_ret, ret.
  destruct (Cpp23.new_Builder σ); try done.
  repeat (match goal with
          | |- context [match ?m ?x with _ => _ end] =>
              lazymatch m with
              | Cpp23.Builder_build _ => fail
              | _ => destruct (m x); try done
              end
          end).
Qed.

(** ** Validation in [build()] *)

(** C1, as stated, fails on the C++17 program: after [Builder{}.size(30)] no
    crust was ever set, and [build()] returns a [Pizza] with the empty
    crust. *)
Lemma C1_counterexample_cpp17_builds_without_crust :
  Cpp17.crusts [Cpp17.Size 30] = [] ∧
  ∃ p σ', Cpp17.build_after [Cpp17.Size 30] ∅ = Ok p σ' ∧
          σ' !! p = Some (OPizza (mkPizza (mkSpecs "" 30 []))).
Proof. split; [reflexivity|]. eexists _, _. split; vm_compute; reflexivity. Qed.

(** C1 (amended). In the C++17 and C++20 programs [build()] validates
    nothing: after every chain of calls on a new builder (in the C++20
    program, of [crust] and [toppings] calls) it returns a new [Pizza] that
    holds what the chain left, and when the chain never sets the crust that
    [Pizza] has the empty crust. *)
Theorem C1_build_validates_nothing_in_cpp17_and_cpp20 :
  (∀ (σ : gmap loc (object string)) cs,
     ∃ p σ', Cpp17.build_after cs σ = Ok p σ' ∧ σ !! p = None ∧
             σ' !! p = Some (OPizza (mkPizza (Cpp17.settled Cpp17.Specs_init cs)))) ∧
  (∀ cs, Cpp17.crusts cs = [] →
         crust (Cpp17.settled Cpp17.Specs_init cs) = "") ∧
  (∀ (σ : gmap loc (object string_view)) cs, Cpp20.sizes cs = [] →
     ∃ p σ', Cpp20.build_after cs σ = Ok p σ' ∧ σ !! p = None ∧
             σ' !! p = Some (OPizza (mkPizza (Cpp20.settled Cpp20.Specs_init cs)))) ∧
  (∀ cs, Cpp20.crusts cs = [] →
         sv_empty (crust (Cpp20.settled Cpp20.Specs_init cs)) = true).
Proof.
  split_and!.
  - intros σ cs. destruct (built_17 σ cs) as (p & σ' & ? & ? & ? & _). eauto.
  - intros cs H. unfold Cpp17.settled. simpl. by rewrite H.
  - intros σ cs Hs. destruct (built_20 σ cs Hs) as (p & σ' & ? & ? & ? & _). eauto.
  - intros cs H. unfold Cpp20.settled. simpl. by rewrite H.
Qed.

Lemma C1_witness_chains_without_crust :
  crust (Cpp17.settled Cpp17.Specs_init [Cpp17.Size 30; Cpp17.AddTopping "Ham"]) = "" ∧
  (∃ p σ', Cpp20.build_after [Cpp20.Toppings [sv_literal 4100 "Ham"]] ∅ = Ok p σ' ∧
           (∅ : gmap loc (object string_view)) !! p = None ∧
           σ' !! p = Some (OPizza (mkPizza (Cpp20.settled Cpp20.Specs_init
                                              [Cpp20.Toppings [sv_literal 4100 "Ham"]])))) ∧
  sv_empty (crust (Cpp20.settled Cpp20.Specs_init
                     [Cpp20.Toppings [sv_literal 4100 "Ham"]])) = true.
Proof.
  split_and!.
  - apply (proj1 (proj2 C1_build_validates_nothing_in_cpp17_and_cpp20)
             [Cpp17.Size 30; Cpp17.AddTopping "Ham"]).
    reflexivity.
  - apply (proj1 (proj2 (proj2 C1_build_validates_nothing_in_cpp17_and_cpp20)) ∅
             [Cpp20.Toppings [sv_literal 4100 "Ham"]]).
    reflexivity.
  - apply (proj2 (proj2 (proj2 C1_build_validates_nothing_in_cpp17_and_cpp20))
             [Cpp20.Toppings [sv_literal 4100 "Ham"]]).
    reflexivity.
Defined.

(** ** What a built [Pizza] shows *)

(** C3. In the C++17 program, after any chain of calls on a new builder that
    leaves a non-empty crust and a size between 20 and 60, [build()] returns
    and the view of the [Pizza] is, per field, the last value the chain set
    and the default where it set none; the toppings are the ones added, in
    the order of the calls.  In the C++23 program the chain leaves these
    values in the builder it returns, but [build()] after it is refused in
    translation, whatever the chain: no [Pizza] is built. *)
Theorem C3_cpp17_builds_last_values_cpp23_build_refused :
  (∀ (σ : gmap loc (object string)) cs,
     let s := Cpp17.settled Cpp17.Specs_init cs in
     crust s ≠ "" → (20 ≤ size_cm s ≤ 60)%Z →
     ∃ σ', Cpp17.view_after cs σ = Ok s σ') ∧
  (∀ (σ : gmap loc (object string_view)) cs,
     ∃ b σ', (b ← Cpp23.new_Builder; Cpp23.chain b cs) σ = Ok b σ' ∧
             σ' !! b = Some (OBuilder (mkBuilder (Cpp23.settled Cpp23.Specs_init cs)))) ∧
  (∀ (σ : gmap loc (object string_view)) cs,
     Cpp23.build_after cs σ = Refused ∧ Cpp23.view_after cs σ = Refused).
Proof.
  split_and!.
  - intros σ cs s _ _. destruct (built_17 σ cs) as (p & σ' & Hrun & _ & _ & Hv).
    exists σ'. unfold Cpp17.view_after. by rewrite (bind_Ok _ _ _ _ _ Hrun).
  - intros σ cs. apply chained_23.
  - intros σ cs. split; [apply built_23|].
    unfold Cpp23.view_after. apply bind_Refused, built_23.
Qed.

Lemma C3_witness_cpp17_chain :
  ∃ σ', Cpp17.view_after
          [Cpp17.Crust "Thin"; Cpp17.AddTopping "Ham"; Cpp17.Crust "Pan";
           Cpp17.Size 90; Cpp17.Size 40; Cpp17.AddTopping "Ham"] ∅
        = Ok (mkSpecs "Pan" 40 ["Ham"; "Ham"]) σ'.
Proof.
  apply (proj1 C3_cpp17_builds_last_values_cpp23_build_refused ∅
           [Cpp17.Crust "Thin"; Cpp17.AddTopping "Ham"; Cpp17.Crust "Pan";
            Cpp17.Size 90; Cpp17.Size 40; Cpp17.AddTopping "Ham"]).
  - vm_compute. discriminate.
  - vm_compute. split; discriminate.
Defined.

(** C4. The chain of [main] in the C++17 program, started in any store,
    returns a [Pizza] whose view has crust "Neapolitan", size 30 and the
    toppings "Tomato", "Mozzarella" in this order. *)
Theorem C4_margherita_view (σ : gmap loc (object string)) :
  ∃ p σ', Cpp17.margherita σ = Ok p σ' ∧ σ !! p = None ∧
          Pizza_specs p σ' =
          Ok {| crust := "Neapolitan"; size_cm := 30;
                toppings := ["Tomato"; "Mozzarella"] |} σ'.
Proof.
  destruct (built_17 σ [Cpp17.Crust "Neapolitan"; Cpp17.Size 30;
                         Cpp17.AddTopping "Tomato"; Cpp17.AddTopping "Mozzarella"])
    as (p & σ' & Hrun & Hp & _ & Hv).
  exists p, σ'. split_and!; [|done|exact Hv].
  rewrite <- Hrun. unfold Cpp17.margherita, Cpp17.build_after. simpl.
  unfold mbind, M_bind, bind, mret, M_ret, ret.
  destruct (Cpp17.new_Builder σ); try done.
  destruct (Cpp17.Builder_crust _ _ _); try done.
  destruct (Cpp17.Builder_size _ _ _); try done.
  destruct (Cpp17.Builder_addTopping _ _ _); try done.
  destruct (Cpp17.Builder_addTopping _ _ _); done.
Qed.

(** ** Toppings *)

(** C5. [addTopping(A)] then [addTopping(B)] on any builder of the C++17
    program, followed by [build()], give a [Pizza] whose toppings are the
    builder's former ones followed by [A], [B]; [add(A)] then [add(B)] on any
    builder of the C++23 program return a builder whose toppings are the
    former ones followed by [A], [B].  Both are appended, in the order of the
    calls, and nothing is removed, whether or not [A], [B] or a former
    topping are equal. *)
Theorem C5_toppings_appended_in_call_order :
  (∀ (σ : gmap loc (object string)) l b A B,
     σ !! l = Some (OBuilder b) →
     ∃ σ', (b1 ← Cpp17.Builder_addTopping l A;
            b2 ← Cpp17.Builder_addTopping b1 B;
            p ← Cpp17.Builder_build b2;
            Pizza_specs p) σ
           = Ok (mkSpecs (crust (Builder_specs_ b)) (size_cm (Builder_specs_ b))
                         (toppings (Builder_specs_ b) ++ [A; B])) σ') ∧
  (∀ (σ : gmap loc (object string_view)) l b A B,
     σ !! l = Some (OBuilder b) →
     ∃ b2 σ', (b1 ← Cpp23.Builder_add l A; Cpp23.Builder_add b1 B) σ = Ok b2 σ' ∧
              σ' !! b2 =
                Some (OBuilder (mkBuilder
                        (mkSpecs (crust (Builder_specs_ b)) (size_cm (Builder_specs_ b))
                                 (toppings (Builder_specs_ b) ++ [A; B])))) ∧
              σ' !! l = Some (OBuilder b)).
Proof.
  split.
  - intros σ l b A B H.
    rewrite (bind_Ok _ _ _ _ _ (Facts17.addTopping_run_17 _ _ _ A H)).
    rewrite (bind_Ok _ _ _ _ _
               (Facts17.addTopping_run_17 _ _ _ B (lookup_insert_eq _ _ _))).
    rewrite insert_insert_eq. simpl.
    rewrite (bind_Ok _ _ _ _ _ (Facts17.build_run_17 _ _ _ (lookup_insert_eq _ _ _))).
    rewrite (Facts17.specs_run_17 _ _ _ (lookup_insert_eq _ _ _)). simpl.
    rewrite <- app_assoc. eauto.
  - intros σ l b A B H.
    rewrite (bind_Ok _ _ _ _ _ (Facts23.add_run_23 _ _ _ A H)).
    rewrite (Facts23.add_run_23 _ _ _ B (lookup_insert_eq _ _ _)). simpl.
    eexists _, _. split; [reflexivity|]. split.
    + rewrite lookup_insert_eq. by rewrite <- app_assoc.
    + apply (lookup_weaken σ); [done|].
      etrans; [apply (insert_subseteq σ), alloc_fresh|].
      apply insert_subseteq, alloc_fresh.
Qed.

Lemma C5_witness_duplicate_topping :
  (∃ σ', (b1 ← Cpp17.Builder_addTopping 1%positive "Ham";
          b2 ← Cpp17.Builder_addTopping b1 "Ham";
          p ← Cpp17.Builder_build b2;
          Pizza_specs p)
           {[ 1%positive := OBuilder (mkBuilder (mkSpecs "Pan" 32 ["Ham"])) ]}
         = Ok (mkSpecs "Pan" 32 ["Ham"; "Ham"; "Ham"]) σ') ∧
  (∃ b2 σ',
     (b1 ← Cpp23.Builder_add 1%positive (sv_literal 4100 "A");
      Cpp23.Builder_add b1 (sv_literal 4102 "B"))
       {[ 1%positive := OBuilder (mkBuilder
                          (mkSpecs (sv_literal 4096 "Pan") 32 [])) ]}
       = Ok b2 σ' ∧
     σ' !! b2 = Some (OBuilder (mkBuilder
                  (mkSpecs (sv_literal 4096 "Pan") 32
                           [sv_literal 4100 "A"; sv_literal 4102 "B"]))) ∧
     σ' !! 1%positive = Some (OBuilder (mkBuilder
                          (mkSpecs (sv_literal 4096 "Pan") 32 [])))).
Proof.
  split.
  - apply (proj1 C5_toppings_appended_in_call_order
             {[ 1%positive := OBuilder (mkBuilder (mkSpecs "Pan" 32 ["Ham"])) ]}
             1%positive (mkBuilder (mkSpecs "Pan" 32 ["Ham"])) "Ham" "Ham").
    reflexivity.
  - apply (proj2 C5_toppings_appended_in_call_order
             {[ 1%positive := OBuilder (mkBuilder
                                (mkSpecs (sv_literal 4096 "Pan") 32 [])) ]}
             1%positive (mkBuilder (mkSpecs (sv_literal 4096 "Pan") 32 []))
             (sv_literal 4100 "A") (sv_literal 4102 "B")).
    reflexivity.
Defined.

(** C6. [toppings(range)] on any builder of the C++20 program leaves the
    builder with exactly the elements of [range] as its toppings, whatever
    they were before, and with the crust and size it had; a [Pizza] built
    next shows these toppings. *)
Theorem C6_toppings_replaces_the_sequence
  (σ : gmap loc (object string_view)) l b range :
  σ !! l = Some (OBuilder b) →
  Cpp20.Builder_toppings l range σ =
    Ok l (<[l := OBuilder (mkBuilder (mkSpecs (crust (Builder_specs_ b))
                                              (size_cm (Builder_specs_ b))
                                              range))]> σ) ∧
  ∃ σ', (b' ← Cpp20.Builder_toppings l range;
         p ← Cpp20.Builder_build b';
         Pizza_specs p) σ
        = Ok (mkSpecs (crust (Builder_specs_ b)) (size_cm (Builder_specs_ b))
                      range) σ'.
Proof.
  intros H. split; [by apply Facts20.toppings_run_20|].
  rewrite (bind_Ok _ _ _ _ _ (Facts20.toppings_run_20 _ _ _ range H)).
  rewrite (bind_Ok _ _ _ _ _ (Facts20.build_run_20 _ _ _ (lookup_insert_eq _ _ _))).
  unfold Pizza_specs.
  rewrite (bind_Ok _ _ _ _ _ (load_Pizza_run _ _ _ (lookup_insert_eq _ _ _))).
  eauto.
Qed.

(** The builder holds the topping "A"; [toppings] with the one element "X"
    leaves "X" alone. *)
Lemma C6_witness_X_after_A :
  let A := sv_literal 4100 "A" in
  let X := sv_literal 4102 "X" in
  let σ : gmap loc (object string_view) :=
    {[ 1%positive := OBuilder (mkBuilder (mkSpecs (sv_literal 4096 "Pan") 32 [A])) ]} in
  Cpp20.Builder_toppings 1%positive [X] σ =
    Ok 1%positive
       (<[1%positive := OBuilder (mkBuilder (mkSpecs (sv_literal 4096 "Pan") 32 [X]))]> σ) ∧
  ∃ σ', (b' ← Cpp20.Builder_toppings 1%positive [X];
         p ← Cpp20.Builder_build b';
         Pizza_specs p) σ
        = Ok (mkSpecs (sv_literal 4096 "Pan") 32 [X]) σ'.
Proof.
  intros A X σ.
  apply (C6_toppings_replaces_the_sequence σ 1%positive
           (mkBuilder (mkSpecs (sv_literal 4096 "Pan") 32 [A])) [X]).
  reflexivity.
Defined.

(** ** Builds are snapshots *)

Section Snapshots.
Context {T : Type}.
Implicit Types σ : gmap loc (object T).

(** Two allocations of the same [Pizza], one after the other. *)
Lemma two_new_Pizzas σ l b :
  σ !! l = Some (OBuilder b) →
  let p1 := fresh (dom σ) in
  let σ1 := <[p1 := OPizza (mkPizza (Builder_specs_ b))]> σ in
  let p2 := fresh (dom σ1) in
  snapshots (<[p2 := OPizza (mkPizza (Builder_specs_ b))]> σ1) l b p1 p2
  ∧ σ !! p1 = None ∧ σ !! p2 = None.
Proof.
  intros Hl p1 σ1 p2.
  assert (H1 : σ !! p1 = None) by apply alloc_fresh.
  assert (H2 : σ1 !! p2 = None) by apply alloc_fresh.
  assert (Hl1 : p1 ≠ l) by (intros ->; congruence).
  apply lookup_insert_None in H2 as [H2 H12].
  assert (Hl2 : p2 ≠ l) by (intros ->; congruence).
  split_and!; [|done..].
  apply snapshots_intro; try done.
  - rewrite lookup_insert_ne by done. subst σ1. by rewrite lookup_insert_ne.
  - rewrite lookup_insert_ne by done. apply lookup_insert_eq.
  - apply lookup_insert_eq.
Qed.

End Snapshots.

(** C7. Two calls of [build()] on the same builder, its state unchanged in
    between, return two [Pizza] objects at two locations that were unused
    before; both show the specification the builder holds, and they are
    snapshots: the two and the builder are three objects, and a write over
    any one of them leaves the view of the others as it was.  This holds for
    every builder of the C++17 and of the C++20 program. *)
Theorem C7_two_builds_are_equal_and_unaliased :
  (∀ (σ : gmap loc (object string)) l b,
     σ !! l = Some (OBuilder b) →
     ∃ p1 p2 σ',
       (p1 ← Cpp17.Builder_build l; p2 ← Cpp17.Builder_build l; mret (p1, p2)) σ
         = Ok (p1, p2) σ' ∧
       σ !! p1 = None ∧ σ !! p2 = None ∧ snapshots σ' l b p1 p2) ∧
  (∀ (σ : gmap loc (object string_view)) l b,
     σ !! l = Some (OBuilder b) →
     ∃ p1 p2 σ',
       (p1 ← Cpp20.Builder_build l; p2 ← Cpp20.Builder_build l; mret (p1, p2)) σ
         = Ok (p1, p2) σ' ∧
       σ !! p1 = None ∧ σ !! p2 = None ∧ snapshots σ' l b p1 p2).
Proof.
  split.
  - intros σ l b H.
    destruct (two_new_Pizzas σ l b H) as (Hs & H1 & H2).
    eexists _, _, _. split_and!; [|exact H1|exact H2|exact Hs].
    rewrite (bind_Ok _ _ _ _ _ (Facts17.build_run_17 _ _ _ H)).
    assert (H' : <[fresh (dom σ) := OPizza (mkPizza (Builder_specs_ b))]> σ !! l
                 = Some (OBuilder b)).
    { rewrite lookup_insert_ne; [done|]. intros E. rewrite <- E in H. congruence. }
    by rewrite (bind_Ok _ _ _ _ _ (Facts17.build_run_17 _ _ _ H')).
  - intros σ l b H.
    destruct (two_new_Pizzas σ l b H) as (Hs & H1 & H2).
    eexists _, _, _. split_and!; [|exact H1|exact H2|exact Hs].
    rewrite (bind_Ok _ _ _ _ _ (Facts20.build_run_20 _ _ _ H)).
    assert (H' : <[fresh (dom σ) := OPizza (mkPizza (Builder_specs_ b))]> σ !! l
                 = Some (OBuilder b)).
    { rewrite lookup_insert_ne; [done|]. intros E. rewrite <- E in H. congruence. }
    by rewrite (bind_Ok _ _ _ _ _ (Facts20.build_run_20 _ _ _ H')).
Qed.

Lemma C7_witness_build_twice :
  let σ17 : gmap loc (object string) :=
    {[ 1%positive := OBuilder (mkBuilder (mkSpecs "Pan" 40 ["Ham"])) ]} in
  let b20 := mkBuilder (mkSpecs string_view_init 32 []) in
  let σ20 : gmap loc (object string_view) := {[ 1%positive := OBuilder b20 ]} in
  (∃ p1 p2 σ',
     (p1 ← Cpp17.Builder_build 1%positive; p2 ← Cpp17.Builder_build 1%positive;
      mret (p1, p2)) σ17 = Ok (p1, p2) σ' ∧
     σ17 !! p1 = None ∧ σ17 !! p2 = None ∧
     snapshots σ' 1%positive (mkBuilder (mkSpecs "Pan" 40 ["Ham"])) p1 p2) ∧
  (∃ p1 p2 σ',
     (p1 ← Cpp20.Builder_build 1%positive; p2 ← Cpp20.Builder_build 1%positive;
      mret (p1, p2)) σ20 = Ok (p1, p2) σ' ∧
     σ20 !! p1 = None ∧ σ20 !! p2 = None ∧ snapshots σ' 1%positive b20 p1 p2).
Proof.
  intros σ17 b20 σ20. split.
  - apply (proj1 C7_two_builds_are_equal_and_unaliased σ17 1%positive).
    reflexivity.
  - apply (proj2 C7_two_builds_are_equal_and_unaliased σ20 1%positive).
    reflexivity.
Defined.

(** ** Value semantics of the C++23 builder *)

(** C9. In the C++23 program [crust], [size] and [add], called on a builder
    at [l], return a builder at a location unused before, holding the updated
    specification; the store is otherwise as it was, so the builder at [l]
    and every other object hold what they held.  The same is true of a whole
    chain of calls: whoever holds another builder sees none of them. *)
Theorem C9_cpp23_calls_leave_receiver_unchanged
  (σ : gmap loc (object string_view)) l b :
  σ !! l = Some (OBuilder b) →
  let s := Builder_specs_ b in
  (∀ c, ∃ l', σ !! l' = None ∧
     Cpp23.Builder_crust l c σ =
       Ok l' (<[l' := OBuilder (mkBuilder (mkSpecs c (size_cm s) (toppings s)))]> σ)) ∧
  (∀ cm, ∃ l', σ !! l' = None ∧
     Cpp23.Builder_size l cm σ =
       Ok l' (<[l' := OBuilder (mkBuilder (mkSpecs (crust s) cm (toppings s)))]> σ)) ∧
  (∀ t, ∃ l', σ !! l' = None ∧
     Cpp23.Builder_add l t σ =
       Ok l' (<[l' := OBuilder (mkBuilder
                         (mkSpecs (crust s) (size_cm s) (toppings s ++ [t])))]> σ)) ∧
  (∀ cs, ∃ l' σ', Cpp23.chain l cs σ = Ok l' σ' ∧
     σ' !! l' = Some (OBuilder (mkBuilder (Cpp23.settled s cs))) ∧
     σ' !! l = Some (OBuilder b) ∧
     ∀ k o, σ !! k = Some o → σ' !! k = Some o).
Proof.
  intros H s. split_and!.
  - intros c. exists (fresh (dom σ)). split; [apply alloc_fresh|].
    by apply Facts23.crust_run_23.
  - intros cm. exists (fresh (dom σ)). split; [apply alloc_fresh|].
    by apply Facts23.size_run_23.
  - intros t. exists (fresh (dom σ)). split; [apply alloc_fresh|].
    by apply Facts23.add_run_23.
  - intros cs. destruct b as [s0]. simpl in s. subst s.
    destruct (Facts23.chain_run_23 cs σ l s0 H) as (l' & σ' & Hrun & Hl' & Hsub & _).
    exists l', σ'. split_and!; [done..| |].
    + by apply (lookup_weaken σ).
    + intros k o Hk. by apply (lookup_weaken σ).
Qed.

Lemma C9_witness_two_holders :
  let b := mkBuilder (mkSpecs (sv_literal 4096 "Pan") 32 []) in
  let σ : gmap loc (object string_view) :=
    {[ 1%positive := OBuilder b; 2%positive := OBuilder b ]} in
  ∃ l' σ',
    Cpp23.chain 1%positive [Cpp23.Size 40; Cpp23.Add (sv_literal 4100 "Ham")] σ
      = Ok l' σ' ∧
    σ' !! l' = Some (OBuilder (mkBuilder
                 (mkSpecs (sv_literal 4096 "Pan") 40 [sv_literal 4100 "Ham"]))) ∧
    σ' !! 1%positive = Some (OBuilder b) ∧
    ∀ k o, σ !! k = Some o → σ' !! k = Some o.
Proof.
  intros b σ.
  apply (C9_cpp23_calls_leave_receiver_unchanged σ 1%positive b).
  reflexivity.
Defined.

(** ** Defaults *)

(** C10. In each of the three programs a new builder holds the empty crust,
    the size 32 and no toppings.  After a chain of calls that never sets the
    size, a [Pizza] built in the C++17 or the C++20 program shows the size
    32, and the builder the chain returns in the C++23 program holds the size
    32. *)
Theorem C10_new_builder_defaults_to_size_32 :
  (∀ σ : gmap loc (object string), ∃ l, σ !! l = None ∧
     Cpp17.new_Builder σ = Ok l (<[l := OBuilder (mkBuilder (mkSpecs "" 32 []))]> σ)) ∧
  (∀ σ : gmap loc (object string_view), ∃ l, σ !! l = None ∧
     Cpp20.new_Builder σ =
       Ok l (<[l := OBuilder (mkBuilder (mkSpecs (mk_string_view 0 0) 32 []))]> σ)) ∧
  (∀ σ : gmap loc (object string_view), ∃ l, σ !! l = None ∧
     Cpp23.new_Builder σ =
       Ok l (<[l := OBuilder (mkBuilder (mkSpecs (mk_string_view 0 0) 32 []))]> σ)) ∧
  (∀ (σ : gmap loc (object string)) cs, Cpp17.sizes cs = [] →
     ∃ s σ', Cpp17.view_after cs σ = Ok s σ' ∧ size_cm s = 32) ∧
  (∀ (σ : gmap loc (object string_view)) cs, Cpp20.sizes cs = [] →
     ∃ s σ', Cpp20.view_after cs σ = Ok s σ' ∧ size_cm s = 32) ∧
  (∀ (σ : gmap loc (object string_view)) cs, Cpp23.sizes cs = [] →
     ∃ b s σ', (b ← Cpp23.new_Builder; Cpp23.chain b cs) σ = Ok b σ' ∧
               σ' !! b = Some (OBuilder (mkBuilder s)) ∧ size_cm s = 32).
Proof.
  split_and!.
  - intros σ. exists (fresh (dom σ)). split; [apply alloc_fresh|done].
  - intros σ. exists (fresh (dom σ)). split; [apply alloc_fresh|done].
  - intros σ. exists (fresh (dom σ)). split; [apply alloc_fresh|done].
  - intros σ cs Hs. destruct (built_17 σ cs) as (p & σ' & Hrun & _ & _ & Hv).
    eexists _, σ'. unfold Cpp17.view_after. rewrite (bind_Ok _ _ _ _ _ Hrun).
    split; [exact Hv|]. simpl. by rewrite Hs.
  - intros σ cs Hs. destruct (built_20 σ cs Hs) as (p & σ' & Hrun & _ & _ & Hv).
    eexists _, σ'. unfold Cpp20.view_after. rewrite (bind_Ok _ _ _ _ _ Hrun).
    split; [exact Hv|]. simpl. by rewrite Hs.
  - intros σ cs Hs. destruct (chained_23 σ cs) as (b & σ' & Hrun & Hb).
    eexists b, _, σ'. split_and!; [done..|]. simpl. by rewrite Hs.
Qed.

Lemma C10_witness_no_size_call :
  (∃ s σ', Cpp17.view_after [Cpp17.AddTopping "Ham"] ∅ = Ok s σ' ∧ size_cm s = 32) ∧
  (∃ s σ', Cpp20.view_after [Cpp20.Toppings [sv_literal 4100 "Ham"]] ∅ = Ok s σ' ∧
           size_cm s = 32) ∧
  (∃ b s σ', (b ← Cpp23.new_Builder;
              Cpp23.chain b [Cpp23.Crust (sv_literal 4096 "Pan")]) ∅ = Ok b σ' ∧
             σ' !! b = Some (OBuilder (mkBuilder s)) ∧ size_cm s = 32).
Proof.
  split_and!.
  - apply (proj1 (proj2 (proj2 (proj2 C10_new_builder_defaults_to_size_32))) ∅
             [Cpp17.AddTopping "Ham"]).
    reflexivity.
  - apply (proj1 (proj2 (proj2 (proj2 (proj2 C10_new_builder_defaults_to_size_32)))) ∅
             [Cpp20.Toppings [sv_literal 4100 "Ham"]]).
    reflexivity.
  - apply (proj2 (proj2 (proj2 (proj2 (proj2 C10_new_builder_defaults_to_size_32)))) ∅
             [Cpp23.Crust (sv_literal 4096 "Pan")]).
    reflexivity.
Defined.

(** ** The constraint on [size] in the C++20 program *)

(** C2. The type-constraint [InRange<20, 60> Size] of [size] is ill-formed:
    it hands the concept the type [Size] where its first parameter is
    [int Min].  So every call of [size] is refused in translation, whatever
    its argument: [size(40)], the call [hawaiian()] makes, is refused
    although 40 is between 20 and 60, and so is every chain of calls that
    contains a [size] call. *)
Theorem C2_size_refuses_in_range_values :
  Cpp20.in_range 20 60 40 = true ∧
  (∀ Size Min Max, Cpp20.InRange_type_constraint Size Min Max = false) ∧
  (∀ (σ : gmap loc (object string_view)) l cm, Cpp20.Builder_size l cm σ = Refused) ∧
  (∀ σ : gmap loc (object string_view),
     (b ← Cpp20.new_Builder;
      b ← Cpp20.Builder_crust b (sv_literal 4096 "Pan");
      Cpp20.Builder_size b 40) σ = Refused) ∧
  (∀ σ : gmap loc (object string_view), Cpp20.hawaiian σ = Refused).
Proof.
  split_and!.
  - reflexivity.
  - apply Facts20.InRange_type_constraint_ill_formed.
  - apply Facts20.size_refused_20.
  - intros σ. unfold Cpp20.new_Builder.
    rewrite (bind_Ok _ _ _ _ _ (alloc_run _ _)).
    by rewrite (bind_Ok _ _ _ _ _
                  (Facts20.crust_run_20 _ _ _ _ (lookup_insert_eq _ _ _))).
  - apply hawaiian_refused.
Qed.

(** ** A [Pizza] is never changed and only [build()] makes one *)

Section Immutability.
Context {T Req Rep : Type} (serve : Req → M (object T) Rep).

(** [built r v k]: the request [r] is a call of [build()] and its reply [v]
    is the [Pizza] at [k]. *)
Variable built : Req → Rep → loc → Prop.

Hypothesis serve_Ok : ∀ r σ v σ',
  serve r σ = Ok v σ' →
  Pizzas σ' = Pizzas σ ∨
  ∃ k P, built r v k ∧ Pizzas σ !! k = None ∧ Pizzas σ' = <[k := P]> (Pizzas σ).

Hypothesis serve_Thrown : ∀ r σ w σ',
  serve r σ = Thrown w σ' → Pizzas σ' = Pizzas σ.

Lemma play_cons r rs σ es σ' :
  play serve (r :: rs) σ = Some (es, σ') →
  ∃ e σ1 es1, es = e :: es1 ∧ play serve rs σ1 = Some (es1, σ') ∧
    ((∃ v, e = Returned r v ∧ serve r σ = Ok v σ1) ∨
     (∃ w, e = Threw r w ∧ serve r σ = Thrown w σ1)).
Proof.
  simpl. destruct (serve r σ) as [v σ1|w σ1| |] eqn:E; try done;
    destruct (play serve rs σ1) as [[es1 σ2]|] eqn:E1; try done;
    intros [= <- <-]; eexists _, σ1, es1; split_and!; eauto.
Qed.

Lemma play_Pizzas rs : ∀ σ es σ',
  play serve rs σ = Some (es, σ') →
  Pizzas σ ⊆ Pizzas σ' ∧
  ∀ k, Pizzas σ !! k = None → is_Some (Pizzas σ' !! k) →
       ∃ r v, Returned r v ∈ es ∧ built r v k.
Proof.
  induction rs as [|r rs IH]; intros σ es σ' H.
  - injection H as <- <-. split; [done|].
    intros k Hk [P HP]. congruence.
  - apply play_cons in H as (e & σ1 & es1 & -> & Hrest & Hstep).
    destruct (IH _ _ _ Hrest) as [Hsub Hnew].
    assert (Hold : ∀ k, Pizzas σ1 !! k = None → is_Some (Pizzas σ' !! k) →
                        ∃ r0 v0, Returned r0 v0 ∈ e :: es1 ∧ built r0 v0 k).
    { intros k Hk HP. destruct (Hnew k Hk HP) as (r0 & v0 & Hin & Hb).
      exists r0, v0. split; [by apply list_elem_of_further|done]. }
    destruct Hstep as [(v & -> & Hs)|(w & -> & Hs)].
    + destruct (serve_Ok _ _ _ _ Hs) as [Heq|(k0 & P & Hb & Hk0 & Heq)].
      * rewrite Heq in *. by split.
      * split.
        { etrans; [|exact Hsub]. rewrite Heq. by apply insert_subseteq. }
        intros k Hk HP. destruct (decide (k = k0)) as [->|Hne].
        -- exists r, v. split; [apply list_elem_of_here|done].
        -- apply Hold; [|done]. rewrite Heq. by rewrite lookup_insert_ne.
    + rewrite (serve_Thrown _ _ _ _ Hs) in *. by split.
Qed.

End Immutability.

Module Steps17.
Import Cpp17 Facts17.
Implicit Types σ : gmap loc (object string).

(** The three configuration calls write a [Builder] over the [Builder]
    they are called on, and do nothing else. *)
Lemma invoke_inv_17 σ l c l' σ' :
  invoke l c σ = Ok l' σ' →
  ∃ B B', σ !! l = Some (OBuilder B) ∧ l' = l ∧ σ' = <[l := OBuilder B']> σ.
Proof.
  destruct (Builders σ !! l) as [B|] eqn:E.
  - apply lookup_Builders in E. destruct B as [s].
    rewrite (invoke_run_17 _ _ _ _ E). intros [= <- <-]. eauto.
  - destruct c; simpl;
      unfold Builder_crust, Builder_size, Builder_addTopping, mbind, M_bind, bind;
      by rewrite (load_Builder_undefined _ _ E).
Qed.

Lemma invoke_not_Thrown_17 σ l c w σ' : invoke l c σ ≠ Thrown w σ'.
Proof.
  destruct (Builders σ !! l) as [B|] eqn:E.
  - apply lookup_Builders in E. destruct B as [s].
    by rewrite (invoke_run_17 _ _ _ _ E).
  - destruct c; simpl;
      unfold Builder_crust, Builder_size, Builder_addTopping, mbind, M_bind, bind;
      by rewrite (load_Builder_undefined _ _ E).
Qed.

Lemma build_inv_17 σ l k σ' :
  Builder_build l σ = Ok k σ' →
  ∃ B, σ !! l = Some (OBuilder B) ∧ σ !! k = None ∧
       σ' = <[k := OPizza (mkPizza (Builder_specs_ B))]> σ.
Proof.
  destruct (Builders σ !! l) as [B|] eqn:E.
  - apply lookup_Builders in E. rewrite (build_run_17 _ _ _ E).
    intros [= <- <-]. exists B. split_and!; [done|apply alloc_fresh|done].
  - unfold Builder_build, mbind, M_bind, bind.
    by rewrite (load_Builder_undefined _ _ E).
Qed.

Lemma build_not_Thrown_17 σ l w σ' : Builder_build l σ ≠ Thrown w σ'.
Proof.
  destruct (Builders σ !! l) as [B|] eqn:E.
  - apply lookup_Builders in E. by rewrite (build_run_17 _ _ _ E).
  - unfold Builder_build, mbind, M_bind, bind.
    by rewrite (load_Builder_undefined _ _ E).
Qed.

Lemma serve_Ok_17 r σ v σ' :
  serve r σ = Ok v σ' →
  Pizzas σ' = Pizzas σ ∨
  ∃ k P, built r v k ∧ Pizzas σ !! k = None ∧ Pizzas σ' = <[k := P]> (Pizzas σ).
Proof.
  destruct r as [|b c|b cm|b t|b|p]; simpl; intros H;
    apply fmap_inv_Ok in H as (a & H & ->).
  - left. injection H as <- <-. apply Pizzas_insert_Builder, Pizzas_fresh.
  - apply (invoke_inv_17 _ _ (Crust c)) in H as (B & B' & HB & -> & ->).
    left. by eapply Pizzas_insert_Builder, Pizzas_at_Builder.
  - apply (invoke_inv_17 _ _ (Size cm)) in H as (B & B' & HB & -> & ->).
    left. by eapply Pizzas_insert_Builder, Pizzas_at_Builder.
  - apply (invoke_inv_17 _ _ (AddTopping t)) in H as (B & B' & HB & -> & ->).
    left. by eapply Pizzas_insert_Builder, Pizzas_at_Builder.
  - apply build_inv_17 in H as (B & HB & Hk & ->).
    right. exists a, (mkPizza (Builder_specs_ B)). split_and!.
    + by exists b.
    + unfold Pizzas. by rewrite lookup_omap, Hk.
    + apply Pizzas_insert_Pizza.
  - apply specs_inv in H as [-> _]. by left.
Qed.

Lemma serve_Thrown_17 r σ w σ' : serve r σ = Thrown w σ' → Pizzas σ' = Pizzas σ.
Proof.
  destruct r as [|b c|b cm|b t|b|p]; simpl; intros H;
    apply fmap_inv_Thrown in H.
  - done.
  - by apply (invoke_not_Thrown_17 _ _ (Crust c)) in H.
  - by apply (invoke_not_Thrown_17 _ _ (Size cm)) in H.
  - by apply (invoke_not_Thrown_17 _ _ (AddTopping t)) in H.
  - by apply build_not_Thrown_17 in H.
  - unfold Pizza_specs, mbind, M_bind, bind in H.
    destruct (load_Pizza p σ) eqn:E; try done.
    unfold load_Pizza, load, mbind, M_bind, bind in E.
    by destruct (σ !! p) as [[?|?]|].
Qed.

End Steps17.

Module Steps23.
Import Cpp23 Facts23.
Implicit Types σ : gmap loc (object string_view).

Ltac undefined_receiver E :=
  simpl;
  unfold Builder_crust, Builder_size, Builder_add, Builder_build,
         constant_expression, copy_Builder, mbind, M_bind, bind;
  by rewrite (load_Builder_undefined _ _ E).

(** The three configuration calls put a [Builder] at an unused location,
    and do nothing else. *)
Lemma invoke_inv_23 σ l c l' σ' :
  invoke l c σ = Ok l' σ' →
  ∃ B B', σ !! l = Some (OBuilder B) ∧ σ !! l' = None ∧
          σ' = <[l' := OBuilder B']> σ.
Proof.
  destruct (Builders σ !! l) as [B|] eqn:E.
  - apply lookup_Builders in E. destruct B as [s].
    rewrite (invoke_run_23 _ _ _ _ E). intros [= <- <-].
    eexists _, _. split_and!; [done|apply alloc_fresh|done].
  - destruct c; undefined_receiver E.
Qed.

Lemma invoke_not_Thrown_23 σ l c w σ' : invoke l c σ ≠ Thrown w σ'.
Proof.
  destruct (Builders σ !! l) as [B|] eqn:E.
  - apply lookup_Builders in E. destruct B as [s].
    by rewrite (invoke_run_23 _ _ _ _ E).
  - destruct c; undefined_receiver E.
Qed.

(** [build()] neither returns nor throws. *)
Lemma build_not_Ok_23 σ l k σ' : Builder_build l σ ≠ Ok k σ'.
Proof.
  destruct (Builders σ !! l) as [B|] eqn:E.
  - apply lookup_Builders in E. by rewrite (build_refused_23 _ _ _ E).
  - undefined_receiver E.
Qed.

Lemma build_not_Thrown_23 σ l w σ' : Builder_build l σ ≠ Thrown w σ'.
Proof.
  destruct (Builders σ !! l) as [B|] eqn:E.
  - apply lookup_Builders in E. by rewrite (build_refused_23 _ _ _ E).
  - undefined_receiver E.
Qed.

Lemma serve_not_Thrown_23 r σ w σ' : serve r σ ≠ Thrown w σ'.
Proof.
  destruct r as [|b c|b cm|b t|b|p]; simpl; intros H;
    apply fmap_inv_Thrown in H.
  - done.
  - by apply (invoke_not_Thrown_23 _ _ (Crust c)) in H.
  - by apply (invoke_not_Thrown_23 _ _ (Size cm)) in H.
  - by apply (invoke_not_Thrown_23 _ _ (Add t)) in H.
  - by apply build_not_Thrown_23 in H.
  - unfold Pizza_specs, mbind, M_bind, bind in H.
    destruct (load_Pizza p σ) eqn:E; try done.
    unfold load_Pizza, load, mbind, M_bind, bind in E.
    by destruct (σ !! p) as [[?|?]|].
Qed.

(** A request that returns has put at most one [Builder] at an unused
    location. *)
Lemma serve_grows_23 r σ v σ' : serve r σ = Ok v σ' → σ ⊆ σ'.
Proof.
  destruct r as [|b c|b cm|b t|b|p]; simpl; intros H;
    apply fmap_inv_Ok in H as (a & H & ->).
  - injection H as <- <-. apply insert_subseteq, alloc_fresh.
  - apply (invoke_inv_23 _ _ (Crust c)) in H as (B & B' & _ & Ha & ->).
    by apply insert_subseteq.
  - apply (invoke_inv_23 _ _ (Size cm)) in H as (B & B' & _ & Ha & ->).
    by apply insert_subseteq.
  - apply (invoke_inv_23 _ _ (Add t)) in H as (B & B' & _ & Ha & ->).
    by apply insert_subseteq.
  - by apply build_not_Ok_23 in H.
  - by apply specs_inv in H as [-> _].
Qed.

End Steps23.

(** ** What histories of requests keep *)

Section Kept.
Context {T Req Rep : Type} (serve : Req → M (object T) Rep).

(** [R] relates a store to a later one; [allowed] picks the requests under
    which it is kept. *)
Variable R : gmap loc (object T) → gmap loc (object T) → Prop.
Variable allowed : Req → Prop.

Hypothesis R_refl : ∀ σ, R σ σ.
Hypothesis R_trans : ∀ σ1 σ2 σ3, R σ1 σ2 → R σ2 σ3 → R σ1 σ3.
Hypothesis kept_Ok : ∀ r σ v σ', allowed r → serve r σ = Ok v σ' → R σ σ'.
Hypothesis kept_Thrown : ∀ r σ w σ', allowed r → serve r σ = Thrown w σ' → R σ σ'.

Lemma play_kept rs : ∀ σ es σ',
  Forall allowed rs → play serve rs σ = Some (es, σ') → R σ σ'.
Proof.
  induction rs as [|r rs IH]; intros σ es σ' Hall H.
  - injection H as <- <-. apply R_refl.
  - apply Forall_cons in Hall as [Hr Hall].
    apply play_cons in H as (e & σ1 & es1 & -> & Hrest & Hstep).
    apply (R_trans _ σ1); [|by eapply IH].
    destruct Hstep as [(v & -> & Hs)|(w & -> & Hs)];
      [by eapply kept_Ok|by eapply kept_Thrown].
Qed.

End Kept.

(** Over any history of requests to the C++23 interface the store only
    grows. *)
Lemma play_grows_23 rs (σ : gmap loc (object string_view)) es σ' :
  play Cpp23.serve rs σ = Some (es, σ') → σ ⊆ σ'.
Proof.
  intros H.
  apply (play_kept Cpp23.serve (⊆) (λ _, True)) with (rs := rs) (es := es);
    [done| |by eauto using Steps23.serve_grows_23| |by apply Forall_true|done].
  - intros σ1 σ2 σ3 H1 H2. by etrans.
  - intros r σ1 w σ2 _ Hs. by apply Steps23.serve_not_Thrown_23 in Hs.
Qed.

(** The implicit copy operations of the C++17 [Pizza]. *)
Lemma Pizza_copy_run (σ : gmap loc (object string)) p P :
  σ !! p = Some (OPizza P) →
  Implicit17.Pizza_copy p σ = Ok (fresh (dom σ)) (<[fresh (dom σ) := OPizza P]> σ).
Proof.
  intros H. unfold Implicit17.Pizza_copy.
  rewrite (bind_Ok _ _ _ _ _ (load_Pizza_run _ _ _ H)). by destruct P.
Qed.

Lemma Pizza_assign_run (σ : gmap loc (object string)) p q P Q :
  σ !! p = Some (OPizza P) → σ !! q = Some (OPizza Q) →
  Implicit17.Pizza_assign p q σ = Ok p (<[p := OPizza Q]> σ).
Proof.
  intros Hp Hq. unfold Implicit17.Pizza_assign.
  rewrite (bind_Ok _ _ _ _ _ (load_Pizza_run _ _ _ Hq)).
  rewrite (bind_Ok _ _ _ _ _ (load_Pizza_run _ _ _ Hp)).
  rewrite (bind_Ok _ _ _ _ _ (assign_run _ _ _ _ Hp)). by destruct Q.
Qed.

(** C8, as stated, fails on the C++17 program.  [Pizza] has an implicit
    public copy assignment operator and copy constructor: a client builds
    [a] with the crust "Pan" and [c] with the crust "Thin"; after [a = c;]
    the [Pizza] [a] shows "Thin", and [Pizza d = a;] is one more [Pizza],
    which no [build()] returned. *)
Lemma C8_counterexample_implicit_copy_operations :
  ∃ σ',
    (b ← Cpp17.new_Builder;
     b ← Cpp17.Builder_crust b "Pan";
     a ← Cpp17.Builder_build b;
     before ← Pizza_specs a;
     b ← Cpp17.Builder_crust b "Thin";
     c ← Cpp17.Builder_build b;
     _ ← Implicit17.Pizza_assign a c;
     after ← Pizza_specs a;
     d ← Implicit17.Pizza_copy a;
     mret (a, c, d, before, after)) ∅
    = Ok (2%positive, 3%positive, 4%positive,
          mkSpecs "Pan" 32 [], mkSpecs "Thin" 32 []) σ' ∧
    σ' !! 4%positive = Some (OPizza (mkPizza (mkSpecs "Thin" 32 []))).
Proof. eexists. split; vm_compute; reflexivity. Qed.

(** C8 (amended). Over the member functions the classes declare
    ([Builder{}], the configuration calls, [build()] and [specs()]) in the
    C++17 program: [specs()] returns the specification the [Pizza] holds and
    leaves the store as it is; [build()] returns a [Pizza] at a location
    unused before, holding the specification of the builder it was called
    on; whatever requests a client makes, one after another, every [Pizza]
    there was at the start is there at the end, holding what it held, and
    every [Pizza] there is at the end was there at the start or is the reply
    to a [build()] request.  The implicit copy constructor of [Pizza] makes
    one more [Pizza] equal to an existing one, and its implicit copy
    assignment operator overwrites a [Pizza] with the value of another.  In
    the C++23 program [specs()] is read-only too, and every [Pizza] there was
    at the start of a history of requests is there at the end, holding what
    it held. *)
Theorem C8_declared_members_never_change_a_pizza :
  (∀ (σ : gmap loc (object string)) p v σ',
     Cpp17.serve (Cpp17.RSpecs p) σ = Ok v σ' →
     σ' = σ ∧ ∃ P, σ !! p = Some (OPizza P) ∧ v = Cpp17.View (Pizza_specs_ P)) ∧
  (∀ (σ : gmap loc (object string)) b v σ',
     Cpp17.serve (Cpp17.RBuild b) σ = Ok v σ' →
     ∃ B k, σ !! b = Some (OBuilder B) ∧ v = Cpp17.Ref k ∧ σ !! k = None ∧
            σ' !! k = Some (OPizza (mkPizza (Builder_specs_ B)))) ∧
  (∀ rs (σ : gmap loc (object string)) es σ',
     play Cpp17.serve rs σ = Some (es, σ') →
     (∀ k P, σ !! k = Some (OPizza P) → σ' !! k = Some (OPizza P)) ∧
     (∀ k P, σ' !! k = Some (OPizza P) →
             σ !! k = Some (OPizza P) ∨
             ∃ b, Returned (Cpp17.RBuild b) (Cpp17.Ref k) ∈ es)) ∧
  (∀ (σ : gmap loc (object string)) p P,
     σ !! p = Some (OPizza P) →
     ∃ k, σ !! k = None ∧
          Implicit17.Pizza_copy p σ = Ok k (<[k := OPizza P]> σ)) ∧
  (∀ (σ : gmap loc (object string)) p q P Q,
     σ !! p = Some (OPizza P) → σ !! q = Some (OPizza Q) →
     Implicit17.Pizza_assign p q σ = Ok p (<[p := OPizza Q]> σ)) ∧
  (∀ (σ : gmap loc (object string_view)) p v σ',
     Cpp23.serve (Cpp23.RSpecs p) σ = Ok v σ' →
     σ' = σ ∧ ∃ P, σ !! p = Some (OPizza P) ∧ v = Cpp23.View (Pizza_specs_ P)) ∧
  (∀ rs (σ : gmap loc (object string_view)) es σ',
     play Cpp23.serve rs σ = Some (es, σ') →
     ∀ k P, σ !! k = Some (OPizza P) → σ' !! k = Some (OPizza P)).
Proof.
  split_and!.
  - intros σ p v σ' H. simpl in H. apply fmap_inv_Ok in H as (s & H & ->).
    apply specs_inv in H as (-> & P & HP & ->). eauto.
  - intros σ b v σ' H. simpl in H. apply fmap_inv_Ok in H as (k & H & ->).
    apply Steps17.build_inv_17 in H as (B & HB & Hk & ->).
    exists B, k. split_and!; [done..|apply lookup_insert_eq].
  - intros rs σ es σ' H.
    destruct (play_Pizzas Cpp17.serve Cpp17.built
                Steps17.serve_Ok_17 Steps17.serve_Thrown_17 rs σ es σ' H)
      as [Hsub Hnew].
    split.
    + intros k P HP. apply lookup_Pizzas.
      apply (lookup_weaken (Pizzas σ)); [by apply lookup_Pizzas|done].
    + intros k P HP. apply lookup_Pizzas in HP.
      destruct (Pizzas σ !! k) as [P0|] eqn:E.
      * left. apply lookup_Pizzas.
        pose proof (lookup_weaken _ _ _ _ E Hsub). congruence.
      * right. destruct (Hnew k E) as (r & v & Hin & b & -> & ->); eauto.
  - intros σ p P H. exists (fresh (dom σ)). split; [apply alloc_fresh|].
    by apply Pizza_copy_run.
  - intros σ p q P Q Hp Hq. by apply (Pizza_assign_run σ p q P Q).
  - intros σ p v σ' H. simpl in H. apply fmap_inv_Ok in H as (s & H & ->).
    apply specs_inv in H as (-> & P & HP & ->). eauto.
  - intros rs σ es σ' H k P HP.
    apply (lookup_weaken σ); [done|]. by eapply play_grows_23.
Qed.

(** A client of the C++17 program builds a "Pan" pizza and then sets another
    crust in the builder; a client of the C++23 program configures builders
    next to a [Pizza] that exists. *)
Lemma C8_witness_two_clients :
  let Pan := mkPizza (mkSpecs (sv_literal 4096 "Pan") 32 []) in
  let σ23 : gmap loc (object string_view) :=
    {[ 1%positive := OBuilder (mkBuilder (mkSpecs string_view_init 32 []));
       2%positive := OPizza Pan ]} in
  (∃ es σ',
     play Cpp17.serve
       [Cpp17.RNewBuilder; Cpp17.RCrust 1%positive "Pan"; Cpp17.RBuild 1%positive;
        Cpp17.RCrust 1%positive "Thin"; Cpp17.RSpecs 2%positive] ∅ = Some (es, σ') ∧
     σ' !! 2%positive = Some (OPizza (mkPizza (mkSpecs "Pan" 32 []))) ∧
     ∀ k P, σ' !! k = Some (OPizza P) →
            (∅ : gmap loc (object string)) !! k = Some (OPizza P) ∨
            ∃ b, Returned (Cpp17.RBuild b) (Cpp17.Ref k) ∈ es) ∧
  (∃ es σ',
     play Cpp23.serve
       [Cpp23.RCrust 1%positive (sv_literal 4100 "Thin"); Cpp23.RSpecs 2%positive;
        Cpp23.RAdd 3%positive (sv_literal 4105 "Ham"); Cpp23.RNewBuilder] σ23
       = Some (es, σ') ∧
     σ' !! 2%positive = Some (OPizza Pan)).
Proof.
  intros Pan σ23. split.
  - eexists _, _. split; [vm_compute; reflexivity|]. split; [reflexivity|].
    apply (proj1 (proj2 (proj2 C8_declared_members_never_change_a_pizza))
             [Cpp17.RNewBuilder; Cpp17.RCrust 1%positive "Pan"; Cpp17.RBuild 1%positive;
              Cpp17.RCrust 1%positive "Thin"; Cpp17.RSpecs 2%positive] ∅).
    vm_compute. reflexivity.
  - eexists _, _. split; [vm_compute; reflexivity|].
    eapply (proj2 (proj2 (proj2 (proj2 (proj2 (proj2
              C8_declared_members_never_change_a_pizza)))))
              [Cpp23.RCrust 1%positive (sv_literal 4100 "Thin"); Cpp23.RSpecs 2%positive;
               Cpp23.RAdd 3%positive (sv_literal 4105 "Ham"); Cpp23.RNewBuilder] σ23).
    + vm_compute. reflexivity.
    + reflexivity.
Defined.


(** * Further properties *)

(** ** Configuration in place (C++17, C++20) *)

(** X1. In the C++17 program a chain of configuration calls on a builder
    returns that same builder ([return *this]), creates no object and leaves
    every other object as it was: whoever holds a reference to the builder
    sees in it what the chain set. *)
Theorem X1_cpp17_chain_configures_receiver_in_place
  (σ : gmap loc (object string)) l s cs :
  σ !! l = Some (OBuilder (mkBuilder s)) →
  ∃ σ', Cpp17.chain l cs σ = Ok l σ' ∧
        σ' !! l = Some (OBuilder (mkBuilder (Cpp17.settled s cs))) ∧
        dom σ' = dom σ ∧
        ∀ k, k ≠ l → σ' !! k = σ !! k.
Proof.
  intros H. eexists. split; [by apply Facts17.chain_run_17|]. split_and!.
  - apply lookup_insert_eq.
  - by eapply dom_insert_lookup_L.
  - intros k Hk. by apply lookup_insert_ne.
Qed.

Lemma X1_witness_shared_builder :
  let σ : gmap loc (object string) :=
    {[ 1%positive := OBuilder (mkBuilder (mkSpecs "Pan" 32 ["Ham"]));
       2%positive := OPizza (mkPizza (mkSpecs "Pan" 32 [])) ]} in
  ∃ σ', Cpp17.chain 1%positive [Cpp17.Size 28; Cpp17.AddTopping "Basil"] σ
          = Ok 1%positive σ' ∧
        σ' !! 1%positive
          = Some (OBuilder (mkBuilder (mkSpecs "Pan" 28 ["Ham"; "Basil"]))) ∧
        dom σ' = dom σ ∧
        ∀ k, k ≠ 1%positive → σ' !! k = σ !! k.
Proof.
  intros σ.
  apply (X1_cpp17_chain_configures_receiver_in_place σ 1%positive
           (mkSpecs "Pan" 32 ["Ham"]) [Cpp17.Size 28; Cpp17.AddTopping "Basil"]).
  reflexivity.
Defined.

(** X2. In the C++20 program [crust] and [toppings] overwrite their field,
    so a chain of [crust] and [toppings] calls has the effect of two: one
    [crust] and one [toppings] call with the values the chain left.  The
    chain returns the builder it was called on, updated in place, its size
    untouched. *)
Theorem X2_cpp20_chain_collapses_to_two_calls
  (σ : gmap loc (object string_view)) l s cs :
  σ !! l = Some (OBuilder (mkBuilder s)) →
  Cpp20.sizes cs = [] →
  let s' := Cpp20.settled s cs in
  size_cm s' = size_cm s ∧
  Cpp20.chain l cs σ = Ok l (<[l := OBuilder (mkBuilder s')]> σ) ∧
  Cpp20.chain l cs σ =
    Cpp20.chain l [Cpp20.Crust (crust s'); Cpp20.Toppings (toppings s')] σ.
Proof.
  intros H Hs s'.
  assert (E : size_cm s' = size_cm s) by (simpl; by rewrite Hs).
  split; [done|].
  rewrite (Facts20.chain_run_20 cs _ _ _ Hs H).
  rewrite (Facts20.chain_run_20
             [Cpp20.Crust (crust s'); Cpp20.Toppings (toppings s')] _ _ _ eq_refl H).
  split; [done|]. do 3 f_equal.
  unfold Cpp20.settled. simpl. by rewrite Hs.
Qed.

Lemma X2_witness_two_ranges :
  let Ham := sv_literal 4100 "Ham" in
  let Kale := sv_literal 4104 "Kale" in
  let Pan := sv_literal 4096 "Pan" in
  let Thin := sv_literal 4109 "Thin" in
  let σ : gmap loc (object string_view) :=
    {[ 1%positive := OBuilder (mkBuilder (mkSpecs Pan 32 [])) ]} in
  let σ' := <[1%positive := OBuilder (mkBuilder (mkSpecs Thin 32 [Kale]))]> σ in
  Cpp20.chain 1%positive
    [Cpp20.Toppings [Ham; Ham]; Cpp20.Crust Thin; Cpp20.Toppings [Kale]] σ
  = Ok 1%positive σ' ∧
  Cpp20.chain 1%positive
    [Cpp20.Toppings [Ham; Ham]; Cpp20.Crust Thin; Cpp20.Toppings [Kale]] σ
  = Cpp20.chain 1%positive [Cpp20.Crust Thin; Cpp20.Toppings [Kale]] σ.
Proof.
  intros Ham Kale Pan Thin σ σ'.
  apply (X2_cpp20_chain_collapses_to_two_calls σ 1%positive (mkSpecs Pan 32 [])
           [Cpp20.Toppings [Ham; Ham]; Cpp20.Crust Thin; Cpp20.Toppings [Kale]]).
  - reflexivity.
  - reflexivity.
Defined.

(** ** Order of the calls (C++17) *)

Lemma settled_swap_17 s cs1 a b cs2 :
  field_17 a ≠ field_17 b →
  Cpp17.settled s (cs1 ++ a :: b :: cs2) = Cpp17.settled s (cs1 ++ b :: a :: cs2).
Proof.
  intros Hab. unfold Cpp17.settled, Cpp17.crusts, Cpp17.sizes, Cpp17.added.
  rewrite !omap_app. destruct a, b; simpl; try done.
Qed.

(** X3. In the C++17 program two adjacent calls of a chain that write
    different fields may be exchanged: the chain leaves the same store.  Two
    [addTopping] calls with different arguments may not: exchanged, they leave
    another store. *)
Theorem X3_cpp17_calls_on_different_fields_commute
  (σ : gmap loc (object string)) l B :
  σ !! l = Some (OBuilder B) →
  (∀ cs1 a b cs2, field_17 a ≠ field_17 b →
     Cpp17.chain l (cs1 ++ a :: b :: cs2) σ = Cpp17.chain l (cs1 ++ b :: a :: cs2) σ) ∧
  (∀ t1 t2, t1 ≠ t2 →
     Cpp17.chain l [Cpp17.AddTopping t1; Cpp17.AddTopping t2] σ ≠
     Cpp17.chain l [Cpp17.AddTopping t2; Cpp17.AddTopping t1] σ).
Proof.
  intros H. destruct B as [s]. split.
  - intros cs1 a b cs2 Hab.
    rewrite !(Facts17.chain_run_17 _ _ _ _ H). by rewrite settled_swap_17.
  - intros t1 t2 Hne. rewrite !(Facts17.chain_run_17 _ _ _ _ H).
    intros [= E].
    assert (E' : <[l := OBuilder (mkBuilder (Cpp17.settled s
                        [Cpp17.AddTopping t1; Cpp17.AddTopping t2]))]> σ !! l =
                 <[l := OBuilder (mkBuilder (Cpp17.settled s
                        [Cpp17.AddTopping t2; Cpp17.AddTopping t1]))]> σ !! l)
      by (by rewrite E).
    rewrite !lookup_insert_eq in E'. injection E' as E'.
    apply app_inv_head in E'. congruence.
Qed.

Lemma X3_witness_size_before_crust :
  let σ : gmap loc (object string) :=
    {[ 1%positive := OBuilder (mkBuilder (mkSpecs "Pan" 32 [])) ]} in
  Cpp17.chain 1%positive
    ([Cpp17.AddTopping "Ham"] ++ Cpp17.Size 28 :: Cpp17.Crust "Thin" :: []) σ =
  Cpp17.chain 1%positive
    ([Cpp17.AddTopping "Ham"] ++ Cpp17.Crust "Thin" :: Cpp17.Size 28 :: []) σ.
Proof.
  intros σ.
  apply (proj1 (X3_cpp17_calls_on_different_fields_commute σ 1%positive
                  (mkBuilder (mkSpecs "Pan" 32 [])) eq_refl)
           [Cpp17.AddTopping "Ham"] (Cpp17.Size 28) (Cpp17.Crust "Thin") []).
  discriminate.
Defined.

(** ** A builder after [build()] *)

(** X4. In the C++17 program [build()] is a [const] member: the builder can
    be configured further and built again.  The first [Pizza] shows what the
    builder held at the first [build()], the second what the further calls
    left; the further calls change nothing in the first. *)
Theorem X4_cpp17_builder_reusable_after_build
  (σ : gmap loc (object string)) l s cs :
  σ !! l = Some (OBuilder (mkBuilder s)) →
  ∃ σ', (p1 ← Cpp17.Builder_build l;
         b ← Cpp17.chain l cs;
         p2 ← Cpp17.Builder_build b;
         v1 ← Pizza_specs p1;
         v2 ← Pizza_specs p2;
         mret (v1, v2)) σ
        = Ok (s, Cpp17.settled s cs) σ'.
Proof.
  intros H.
  rewrite (bind_Ok _ _ _ _ _ (Facts17.build_run_17 _ _ _ H)). simpl.
  set (p1 := fresh (dom σ)). set (σ1 := <[p1 := OPizza (mkPizza s)]> σ).
  assert (Hp1 : σ !! p1 = None) by apply alloc_fresh.
  assert (Hne : p1 ≠ l) by (intros ->; congruence).
  assert (H1 : σ1 !! l = Some (OBuilder (mkBuilder s)))
    by (subst σ1; by rewrite lookup_insert_ne).
  rewrite (bind_Ok _ _ _ _ _ (Facts17.chain_run_17 cs _ _ _ H1)).
  set (σ2 := <[l := OBuilder (mkBuilder (Cpp17.settled s cs))]> σ1).
  assert (H2 : σ2 !! l = Some (OBuilder (mkBuilder (Cpp17.settled s cs))))
    by apply lookup_insert_eq.
  rewrite (bind_Ok _ _ _ _ _ (Facts17.build_run_17 _ _ _ H2)).
  simpl. set (p2 := fresh (dom σ2)).
  assert (H21 : σ2 !! p1 = Some (OPizza (mkPizza s))).
  { subst σ2. rewrite lookup_insert_ne by done. apply lookup_insert_eq. }
  assert (Hne2 : p2 ≠ p1).
  { intros E. pose proof (alloc_fresh σ2) as F. fold p2 in F. congruence. }
  assert (H31 : <[p2 := OPizza (mkPizza (Cpp17.settled s cs))]> σ2 !! p1
                = Some (OPizza (mkPizza s))) by (by rewrite lookup_insert_ne).
  rewrite (bind_Ok _ _ _ _ _ (specs_run _ p1 _ H31)).
  rewrite (bind_Ok _ _ _ _ _ (specs_run _ p2 _ (lookup_insert_eq _ _ _))).
  eauto.
Qed.

Lemma X4_witness_two_flavours :
  ∃ σ', (p1 ← Cpp17.Builder_build 1%positive;
         b ← Cpp17.chain 1%positive [Cpp17.AddTopping "Ham"; Cpp17.Size 40];
         p2 ← Cpp17.Builder_build b;
         v1 ← Pizza_specs p1;
         v2 ← Pizza_specs p2;
         mret (v1, v2))
          {[ 1%positive := OBuilder (mkBuilder (mkSpecs "Pan" 32 ["Tomato"])) ]}
        = Ok (mkSpecs "Pan" 32 ["Tomato"], mkSpecs "Pan" 40 ["Tomato"; "Ham"]) σ'.
Proof.
  apply (X4_cpp17_builder_reusable_after_build
           {[ 1%positive := OBuilder (mkBuilder (mkSpecs "Pan" 32 ["Tomato"])) ]}
           1%positive (mkSpecs "Pan" 32 ["Tomato"])
           [Cpp17.AddTopping "Ham"; Cpp17.Size 40]).
  reflexivity.
Defined.

(** ** What histories of requests keep *)

(** X7. No member function of the C++23 program assigns to an object that
    exists: whatever requests a client makes, every object of the store,
    builder or [Pizza], holds at the end what it held at the start. *)
Theorem X7_cpp23_no_request_changes_an_object
  rs (σ : gmap loc (object string_view)) es σ' :
  play Cpp23.serve rs σ = Some (es, σ') →
  ∀ k o, σ !! k = Some o → σ' !! k = Some o.
Proof.
  intros H k o Hk. apply (lookup_weaken σ); [done|]. by eapply play_grows_23.
Qed.

Lemma X7_witness_builder_kept :
  let Pan := sv_literal 4096 "Pan" in
  let σ : gmap loc (object string_view) :=
    {[ 1%positive := OBuilder (mkBuilder (mkSpecs string_view_init 32 []));
       2%positive := OPizza (mkPizza (mkSpecs Pan 28 [])) ]} in
  ∃ es σ',
    play Cpp23.serve
      [Cpp23.RCrust 1%positive Pan; Cpp23.RSize 1%positive 40;
       Cpp23.RAdd 3%positive Pan; Cpp23.RSpecs 2%positive; Cpp23.RNewBuilder] σ
      = Some (es, σ') ∧
    ∀ k o, σ !! k = Some o → σ' !! k = Some o.
Proof.
  intros Pan σ. eexists _, _. split; [vm_compute; reflexivity|].
  eapply (X7_cpp23_no_request_changes_an_object
            [Cpp23.RCrust 1%positive Pan; Cpp23.RSize 1%positive 40;
             Cpp23.RAdd 3%positive Pan; Cpp23.RSpecs 2%positive;
             Cpp23.RNewBuilder] σ).
  vm_compute. reflexivity.
Defined.

Lemma serve_frame_Ok_17 l r (σ : gmap loc (object string)) v σ' :
  written_17 r ≠ Some l → Cpp17.serve r σ = Ok v σ' →
  ∀ o, σ !! l = Some o → σ' !! l = Some o.
Proof.
  intros Hw H o Hl.
  destruct r as [|b c|b cm|b t|b|p]; simpl in *;
    apply fmap_inv_Ok in H as (a & H & ->).
  - injection H as <- <-. rewrite lookup_insert_ne; [done|].
    intros E. pose proof (alloc_fresh σ) as F. congruence.
  - apply (Steps17.invoke_inv_17 _ _ (Cpp17.Crust c)) in H as (B & B' & _ & _ & ->).
    rewrite lookup_insert_ne; [done|congruence].
  - apply (Steps17.invoke_inv_17 _ _ (Cpp17.Size cm)) in H as (B & B' & _ & _ & ->).
    rewrite lookup_insert_ne; [done|congruence].
  - apply (Steps17.invoke_inv_17 _ _ (Cpp17.AddTopping t)) in H
      as (B & B' & _ & _ & ->).
    rewrite lookup_insert_ne; [done|congruence].
  - apply Steps17.build_inv_17 in H as (B & _ & Hk & ->).
    rewrite lookup_insert_ne; [done|congruence].
  - by apply specs_inv in H as [-> _].
Qed.

(** X8. In the C++17 program only a configuration call changes an object, and
    only its receiver: whatever requests a client makes, an object that is
    the receiver of none of the [crust], [size] and [addTopping] calls among
    them holds at the end what it held at the start. *)
Theorem X8_cpp17_only_the_receiver_changes
  rs (σ : gmap loc (object string)) es σ' l o :
  play Cpp17.serve rs σ = Some (es, σ') →
  Forall (λ r, written_17 r ≠ Some l) rs →
  σ !! l = Some o → σ' !! l = Some o.
Proof.
  intros H Hrs.
  apply (play_kept Cpp17.serve
           (λ σ1 σ2, σ1 !! l = Some o → σ2 !! l = Some o)
           (λ r, written_17 r ≠ Some l)) with (rs := rs) (es := es); try done.
  - intros σ1 σ2 σ3 H1 H2 H3. auto.
  - intros r σ1 v σ2 Hw Hs Hl. by eapply serve_frame_Ok_17.
  - intros r σ1 w σ2 _ Hs. apply Steps17.serve_Thrown_17 in Hs as Hp.
    destruct r as [|b c|b cm|b t|b|p]; simpl in Hs; apply fmap_inv_Thrown in Hs.
    + done.
    + by apply (Steps17.invoke_not_Thrown_17 _ _ (Cpp17.Crust c)) in Hs.
    + by apply (Steps17.invoke_not_Thrown_17 _ _ (Cpp17.Size cm)) in Hs.
    + by apply (Steps17.invoke_not_Thrown_17 _ _ (Cpp17.AddTopping t)) in Hs.
    + by apply Steps17.build_not_Thrown_17 in Hs.
    + unfold Pizza_specs, mbind, M_bind, bind in Hs.
      destruct (load_Pizza p σ1) eqn:E; try done.
      unfold load_Pizza, load, mbind, M_bind, bind in E.
      by destruct (σ1 !! p) as [[?|?]|].
Qed.

Lemma X8_witness_second_builder_kept :
  let σ : gmap loc (object string) :=
    {[ 1%positive := OBuilder (mkBuilder (mkSpecs "Pan" 32 []));
       2%positive := OBuilder (mkBuilder (mkSpecs "Thin" 28 ["Ham"])) ]} in
  ∃ es σ',
    play Cpp17.serve
      [Cpp17.RCrust 1%positive "Roman"; Cpp17.RBuild 2%positive;
       Cpp17.RAddTopping 1%positive "Basil"; Cpp17.RBuild 1%positive] σ
      = Some (es, σ') ∧
    σ' !! 2%positive = Some (OBuilder (mkBuilder (mkSpecs "Thin" 28 ["Ham"]))).
Proof.
  intros σ. eexists _, _. split; [vm_compute; reflexivity|].
  eapply (X8_cpp17_only_the_receiver_changes
           [Cpp17.RCrust 1%positive "Roman"; Cpp17.RBuild 2%positive;
            Cpp17.RAddTopping 1%positive "Basil"; Cpp17.RBuild 1%positive] σ
           _ _ 2%positive).
  - vm_compute. reflexivity.
  - repeat constructor; discriminate.
  - reflexivity.
Defined.

(** ** The [Pizza] of the C++20 program *)

Module Steps20.
Import Cpp20 Requests20 Facts20.
Implicit Types σ : gmap loc (object string_view).

Ltac undefined_receiver E :=
  simpl;
  unfold Builder_crust, Builder_toppings, Builder_build, mbind, M_bind, bind;
  by rewrite (load_Builder_undefined _ _ E).

(** [crust] and [toppings] write a [Builder] over the [Builder] they are
    called on, and do nothing else; [size] does not return. *)
Lemma invoke_inv_20 σ l c l' σ' :
  invoke l c σ = Ok l' σ' →
  ∃ B B', σ !! l = Some (OBuilder B) ∧ l' = l ∧ σ' = <[l := OBuilder B']> σ.
Proof.
  destruct (decide (sizes [c] = [])) as [Hc|Hc]; [|by destruct c].
  destruct (Builders σ !! l) as [B|] eqn:E.
  - apply lookup_Builders in E. destruct B as [s].
    rewrite (invoke_run_20 _ _ _ _ Hc E). intros [= <- <-]. eauto.
  - destruct c; [undefined_receiver E|done|undefined_receiver E].
Qed.

Lemma invoke_not_Thrown_20 σ l c w σ' : invoke l c σ ≠ Thrown w σ'.
Proof.
  destruct (decide (sizes [c] = [])) as [Hc|Hc]; [|by destruct c].
  destruct (Builders σ !! l) as [B|] eqn:E.
  - apply lookup_Builders in E. destruct B as [s].
    by rewrite (invoke_run_20 _ _ _ _ Hc E).
  - destruct c; [undefined_receiver E|done|undefined_receiver E].
Qed.

Lemma build_inv_20 σ l k σ' :
  Builder_build l σ = Ok k σ' →
  ∃ B, σ !! l = Some (OBuilder B) ∧ σ !! k = None ∧
       σ' = <[k := OPizza (mkPizza (Builder_specs_ B))]> σ.
Proof.
  destruct (Builders σ !! l) as [B|] eqn:E.
  - apply lookup_Builders in E. rewrite (build_run_20 _ _ _ E).
    intros [= <- <-]. exists B. split_and!; [done|apply alloc_fresh|done].
  - undefined_receiver E.
Qed.

Lemma build_not_Thrown_20 σ l w σ' : Builder_build l σ ≠ Thrown w σ'.
Proof.
  destruct (Builders σ !! l) as [B|] eqn:E.
  - apply lookup_Builders in E. by rewrite (build_run_20 _ _ _ E).
  - undefined_receiver E.
Qed.

Lemma serve_Ok_20 r σ v σ' :
  serve r σ = Ok v σ' →
  Pizzas σ' = Pizzas σ ∨
  ∃ k P, built r v k ∧ Pizzas σ !! k = None ∧ Pizzas σ' = <[k := P]> (Pizzas σ).
Proof.
  destruct r as [|b c|b cm|b t|b|p]; simpl; intros H;
    apply fmap_inv_Ok in H as (a & H & ->).
  - left. injection H as <- <-. apply Pizzas_insert_Builder, Pizzas_fresh.
  - apply (invoke_inv_20 _ _ (Crust c)) in H as (B & B' & HB & -> & ->).
    left. by eapply Pizzas_insert_Builder, Pizzas_at_Builder.
  - by rewrite size_refused_20 in H.
  - apply (invoke_inv_20 _ _ (Toppings t)) in H as (B & B' & HB & -> & ->).
    left. by eapply Pizzas_insert_Builder, Pizzas_at_Builder.
  - apply build_inv_20 in H as (B & HB & Hk & ->).
    right. exists a, (mkPizza (Builder_specs_ B)). split_and!.
    + by exists b.
    + unfold Pizzas. by rewrite lookup_omap, Hk.
    + apply Pizzas_insert_Pizza.
  - apply specs_inv in H as [-> _]. by left.
Qed.

Lemma serve_Thrown_20 r σ w σ' : serve r σ ≠ Thrown w σ'.
Proof.
  destruct r as [|b c|b cm|b t|b|p]; simpl; intros H;
    apply fmap_inv_Thrown in H.
  - done.
  - by apply (invoke_not_Thrown_20 _ _ (Crust c)) in H.
  - by rewrite size_refused_20 in H.
  - by apply (invoke_not_Thrown_20 _ _ (Toppings t)) in H.
  - by apply build_not_Thrown_20 in H.
  - unfold Pizza_specs, mbind, M_bind, bind in H.
    destruct (load_Pizza p σ) eqn:E; try done.
    unfold load_Pizza, load, mbind, M_bind, bind in E.
    by destruct (σ !! p) as [[?|?]|].
Qed.

End Steps20.

(** X9. In the C++20 program, over [Builder{}], [crust], [toppings],
    [build()] and [specs()] ([size] being refused in translation): no
    request throws; whatever requests a client makes, every [Pizza] there
    was at the start is there at the end, holding what it held, and every
    [Pizza] there is at the end was there at the start or is the reply to a
    [build()] request; [build()] returns a [Pizza] at a location unused
    before that holds the specification of its builder, empty crust
    included. *)
Theorem X9_cpp20_pizza_never_changes_and_comes_from_build :
  (∀ r (σ : gmap loc (object string_view)) w σ',
     Requests20.serve r σ ≠ Thrown w σ') ∧
  (∀ (σ : gmap loc (object string_view)) b B,
     σ !! b = Some (OBuilder B) →
     ∃ k, σ !! k = None ∧
          Requests20.serve (Requests20.RBuild b) σ =
            Ok (Requests20.Ref k) (<[k := OPizza (mkPizza (Builder_specs_ B))]> σ)) ∧
  (∀ rs (σ : gmap loc (object string_view)) es σ',
     play Requests20.serve rs σ = Some (es, σ') →
     (∀ k P, σ !! k = Some (OPizza P) → σ' !! k = Some (OPizza P)) ∧
     (∀ k P, σ' !! k = Some (OPizza P) →
             σ !! k = Some (OPizza P) ∨
             ∃ b, Returned (Requests20.RBuild b) (Requests20.Ref k) ∈ es)).
Proof.
  split_and!.
  - apply Steps20.serve_Thrown_20.
  - intros σ b B H. exists (fresh (dom σ)). split; [apply alloc_fresh|].
    simpl. unfold fmap, M_fmap, bind. by rewrite (Facts20.build_run_20 _ _ _ H).
  - intros rs σ es σ' H.
    destruct (play_Pizzas Requests20.serve Requests20.built Steps20.serve_Ok_20
                (λ r σ1 w σ2 Hs, False_ind _ (Steps20.serve_Thrown_20 r σ1 w σ2 Hs))
                rs σ es σ' H)
      as [Hsub Hnew].
    split.
    + intros k P HP. apply lookup_Pizzas.
      apply (lookup_weaken (Pizzas σ)); [by apply lookup_Pizzas|done].
    + intros k P HP. apply lookup_Pizzas in HP.
      destruct (Pizzas σ !! k) as [P0|] eqn:E.
      * left. apply lookup_Pizzas.
        pose proof (lookup_weaken _ _ _ _ E Hsub). congruence.
      * right. destruct (Hnew k E) as (r & v & Hin & b & -> & ->); eauto.
Qed.

Lemma X9_witness_client :
  let Pan := sv_literal 4096 "Pan" in
  let Ham := sv_literal 4100 "Ham" in
  ∃ es σ',
    play Requests20.serve
      [Requests20.RNewBuilder; Requests20.RBuild 1%positive;
       Requests20.RCrust 1%positive Pan; Requests20.RToppings 1%positive [Ham];
       Requests20.RBuild 1%positive; Requests20.RToppings 1%positive [];
       Requests20.RSpecs 2%positive] ∅ = Some (es, σ') ∧
    σ' !! 2%positive = Some (OPizza (mkPizza (mkSpecs string_view_init 32 []))) ∧
    σ' !! 3%positive = Some (OPizza (mkPizza (mkSpecs Pan 32 [Ham]))) ∧
    ∀ k P, σ' !! k = Some (OPizza P) →
           (∅ : gmap loc (object string_view)) !! k = Some (OPizza P) ∨
           ∃ b, Returned (Requests20.RBuild b) (Requests20.Ref k) ∈ es.
Proof.
  intros Pan Ham.
  eexists _, _. split; [vm_compute; reflexivity|].
  split; [reflexivity|]. split; [reflexivity|].
  eapply (proj2 (proj2 X9_cpp20_pizza_never_changes_and_comes_from_build)
            [Requests20.RNewBuilder; Requests20.RBuild 1%positive;
             Requests20.RCrust 1%positive Pan; Requests20.RToppings 1%positive [Ham];
             Requests20.RBuild 1%positive; Requests20.RToppings 1%positive [];
             Requests20.RSpecs 2%positive] ∅).
  vm_compute. reflexivity.
Defined.

(** ** Two chains from one builder *)

Lemma settled_app_17 cs1 : ∀ s cs2,
  Cpp17.settled s (cs1 ++ cs2) = Cpp17.settled (Cpp17.settled s cs1) cs2.
Proof.
  induction cs1 as [|c cs1 IH]; intros s cs2.
  - by rewrite Facts17.settled_nil_17.
  - rewrite <- app_comm_cons, Facts17.settled_cons_17, IH.
    by rewrite <- Facts17.settled_cons_17.
Qed.

(** X10. Two chains of calls made one after the other on the same builder.
    In the C++23 program each starts from what the builder holds: they return
    two builders, the first holding what the first chain set, the second what
    the second chain set, and neither what the other set.  In the C++17
    program both return the builder itself, which ends up holding what the
    two chains set in sequence. *)
Theorem X10_two_chains_from_one_builder :
  (∀ (σ : gmap loc (object string_view)) l s cs1 cs2,
     σ !! l = Some (OBuilder (mkBuilder s)) →
     ∃ b1 b2 σ',
       (b1 ← Cpp23.chain l cs1; b2 ← Cpp23.chain l cs2; mret (b1, b2)) σ
         = Ok (b1, b2) σ' ∧
       σ' !! b1 = Some (OBuilder (mkBuilder (Cpp23.settled s cs1))) ∧
       σ' !! b2 = Some (OBuilder (mkBuilder (Cpp23.settled s cs2))) ∧
       σ' !! l = Some (OBuilder (mkBuilder s))) ∧
  (∀ (σ : gmap loc (object string)) l s cs1 cs2,
     σ !! l = Some (OBuilder (mkBuilder s)) →
     (b1 ← Cpp17.chain l cs1; b2 ← Cpp17.chain l cs2; mret (b1, b2)) σ
       = Ok (l, l) (<[l := OBuilder (mkBuilder (Cpp17.settled s (cs1 ++ cs2)))]> σ)).
Proof.
  split.
  - intros σ l s cs1 cs2 H.
    destruct (Facts23.chain_run_23 cs1 σ l s H) as (b1 & σ1 & Hrun1 & Hb1 & Hsub1 & _).
    assert (H1 : σ1 !! l = Some (OBuilder (mkBuilder s)))
      by (by apply (lookup_weaken σ)).
    destruct (Facts23.chain_run_23 cs2 σ1 l s H1) as (b2 & σ2 & Hrun2 & Hb2 & Hsub2 & _).
    exists b1, b2, σ2.
    rewrite (bind_Ok _ _ _ _ _ Hrun1), (bind_Ok _ _ _ _ _ Hrun2).
    split_and!; [done| |done|].
    + by apply (lookup_weaken σ1).
    + by apply (lookup_weaken σ1).
  - intros σ l s cs1 cs2 H.
    rewrite (bind_Ok _ _ _ _ _ (Facts17.chain_run_17 cs1 _ _ _ H)).
    rewrite (bind_Ok _ _ _ _ _
               (Facts17.chain_run_17 cs2 _ _ _ (lookup_insert_eq _ _ _))).
    by rewrite insert_insert_eq, settled_app_17.
Qed.

Lemma X10_witness_two_recipes :
  let Pan := sv_literal 4096 "Pan" in
  let Ham := sv_literal 4100 "Ham" in
  let Kale := sv_literal 4104 "Kale" in
  (∃ b1 b2 σ',
     (b1 ← Cpp23.chain 1%positive [Cpp23.Add Ham];
      b2 ← Cpp23.chain 1%positive [Cpp23.Add Kale; Cpp23.Size 40];
      mret (b1, b2))
       {[ 1%positive := OBuilder (mkBuilder (mkSpecs Pan 32 [])) ]}
       = Ok (b1, b2) σ' ∧
     σ' !! b1 = Some (OBuilder (mkBuilder (mkSpecs Pan 32 [Ham]))) ∧
     σ' !! b2 = Some (OBuilder (mkBuilder (mkSpecs Pan 40 [Kale]))) ∧
     σ' !! 1%positive = Some (OBuilder (mkBuilder (mkSpecs Pan 32 [])))) ∧
  (b1 ← Cpp17.chain 1%positive [Cpp17.AddTopping "Ham"];
   b2 ← Cpp17.chain 1%positive [Cpp17.AddTopping "Kale"; Cpp17.Size 40];
   mret (b1, b2))
    {[ 1%positive := OBuilder (mkBuilder (mkSpecs "Pan" 32 [])) ]}
  = Ok (1%positive, 1%positive)
       (<[1%positive := OBuilder (mkBuilder (mkSpecs "Pan" 40 ["Ham"; "Kale"]))]>
          {[ 1%positive := OBuilder (mkBuilder (mkSpecs "Pan" 32 [])) ]}).
Proof.
  intros Pan Ham Kale. split.
  - apply (proj1 X10_two_chains_from_one_builder
             {[ 1%positive := OBuilder (mkBuilder (mkSpecs Pan 32 [])) ]}
             1%positive (mkSpecs Pan 32 []) [Cpp23.Add Ham]
             [Cpp23.Add Kale; Cpp23.Size 40]).
    reflexivity.
  - apply (proj2 X10_two_chains_from_one_builder
             {[ 1%positive := OBuilder (mkBuilder (mkSpecs "Pan" 32 [])) ]}
             1%positive (mkSpecs "Pan" 32 [])
             [Cpp17.AddTopping "Ham"] [Cpp17.AddTopping "Kale"; Cpp17.Size 40]).
    reflexivity.
Defined.
